(** * Visionly AI: the backend-service route and the job engine

    Part I embeds [app/routes/api.backend.ts]: the configuration table
    [BACKEND_CONFIG] and the request handler [action], written in a small
    effect monad whose events are the awaited calls of the handler
    (authentication, form parsing, the clock, [axios.post], [console.error]).

    Part II models the asynchronous job engine (Orchestrator, Job Store,
    Aggregator) of the Python backend, which this TypeScript app only
    fronts; those definitions follow the design document.

    Part III embeds the rest of the app: the loader and the page of
    [api.backend.ts] and the loader of [_index.tsx]. *)

From Stdlib Require Import ZArith Ascii String List Bool Lia.
From stdpp Require Import gmap strings list fin_maps sorting.

Import ListNotations.
Local Open Scope string_scope.
Local Open Scope list_scope.
Set Warnings "-register-all".

(* ===================================================================== *)
(** * Part I: [app/routes/api.backend.ts]                                 *)
(* ===================================================================== *)

Module Route.

(** ** JavaScript data *)

(** JSON documents: what [json(...)] sends back and what axios posts. *)
Inductive Json : Type :=
| JNull
| JBool (b : bool)
| JNum (z : Z)
| JStr (s : string)
| JArr (items : list Json)
| JObj (fields : list (string * Json)).

(** A thrown (or rejected-with) value: an [Error] instance carries a
    message; anything else (for instance the redirect [Response] thrown by
    [authenticate.admin]) is not an [Error]. *)
Inductive Thrown : Type :=
| ErrorObject (message : string)
| NotAnError (what : string).

(** [error instanceof Error ? error.message : "Unknown error"] *)
Definition error_details (error : Thrown) : string :=
  match error with
  | ErrorObject message => message
  | NotAnError _ => "Unknown error"
  end.

(** An entry of a submitted form is a string or a file; [FormData.get]
    answers [null] (here [None]) for a field that is absent. *)
Inductive FormDataEntryValue : Type :=
| EntryString (s : string)
| EntryFile (filename : string).

Definition FormData : Type := list (string * FormDataEntryValue).

Fixpoint FormData_get (formData : FormData) (name : string)
  : option FormDataEntryValue :=
  match formData with
  | [] => None
  | (k, v) :: rest => if String.eqb k name then Some v else FormData_get rest name
  end.

(** The property key a value is converted to when it indexes an object. *)
Definition to_property_key (v : option FormDataEntryValue) : string :=
  match v with
  | None => "null"
  | Some (EntryString s) => s
  | Some (EntryFile _) => "[object File]"
  end.

(** The JSON a form value serialises to ([JSON.stringify]). *)
Definition entry_json (v : option FormDataEntryValue) : Json :=
  match v with
  | None => JNull
  | Some (EntryString s) => JStr s
  | Some (EntryFile _) => JObj []
  end.

(** An incoming request: its headers (what [authenticate.admin] looks at)
    and its body, [None] when the body cannot be read as form data. *)
Record Request : Type := mkRequest {
  headers : list (string * string);
  body : option FormData
}.

(** The response built by [json(data, init)]. *)
Record Response : Type := mkResponse {
  status : Z;
  payload : Json
}.

Definition json (data : Json) (init_status : option Z) : Response :=
  {| status := default 200%Z init_status; payload := data |}.

(** ** The configuration table *)

Record ServiceConfig : Type := mkServiceConfig {
  url : string;
  description : string
}.

(** [process.env.NAME || ""]: an unset variable and an empty one both give
    the empty string. *)
Definition env_or_empty (env : gmap string string) (name : string) : string :=
  match env !! name with
  | Some "" => ""
  | Some v => v
  | None => ""
  end.

(** The object literal [BACKEND_CONFIG], its own properties in source order. *)
Definition BACKEND_CONFIG (env : gmap string string)
  : list (string * ServiceConfig) :=
  [ ("finance",
      {| url := env_or_empty env "FINANCE_API_URL";
         description := "Financial data and currency analysis" |});
    ("news",
      {| url := env_or_empty env "NEWS_API_URL";
         description := "News sentiment analysis and market insights" |});
    ("trends",
      {| url := env_or_empty env "TRENDS_API_URL";
         description := "Google Trends and search analytics" |});
    ("meta",
      {| url := env_or_empty env "META_API_URL";
         description := "Meta/Facebook social media analytics" |});
    ("tiktok",
      {| url := env_or_empty env "TIKTOK_API_URL";
         description := "TikTok engagement and trend analysis" |});
    ("weather",
      {| url := env_or_empty env "WEATHER_API_URL";
         description := "Weather data and forecasting" |}) ].

(** The six source names, and the environment variable each reads. *)
Definition service_names : list string :=
  ["finance"; "news"; "trends"; "meta"; "tiktok"; "weather"].

Definition url_variable (service : string) : string :=
  if String.eqb service "finance" then "FINANCE_API_URL"
  else if String.eqb service "news" then "NEWS_API_URL"
  else if String.eqb service "trends" then "TRENDS_API_URL"
  else if String.eqb service "meta" then "META_API_URL"
  else if String.eqb service "tiktok" then "TIKTOK_API_URL"
  else if String.eqb service "weather" then "WEATHER_API_URL"
  else "".

Definition service_description (service : string) : string :=
  if String.eqb service "finance" then "Financial data and currency analysis"
  else if String.eqb service "news" then "News sentiment analysis and market insights"
  else if String.eqb service "trends" then "Google Trends and search analytics"
  else if String.eqb service "meta" then "Meta/Facebook social media analytics"
  else if String.eqb service "tiktok" then "TikTok engagement and trend analysis"
  else if String.eqb service "weather" then "Weather data and forecasting"
  else "".

(** [BACKEND_CONFIG] is a plain object literal, so its prototype is
    [Object.prototype]; these are the properties every such object
    inherits. *)
Definition object_prototype_keys : list string :=
  [ "constructor"; "__defineGetter__"; "__defineSetter__"; "hasOwnProperty";
    "__lookupGetter__"; "__lookupSetter__"; "isPrototypeOf";
    "propertyIsEnumerable"; "toString"; "valueOf"; "__proto__";
    "toLocaleString" ].

(** What [BACKEND_CONFIG[key]] evaluates to. *)
Inductive Looked : Type :=
| Undefined
| OwnEntry (config : ServiceConfig)
| Inherited (key : string).

Fixpoint own_property (obj : list (string * ServiceConfig)) (key : string)
  : option ServiceConfig :=
  match obj with
  | [] => None
  | (k, c) :: rest => if String.eqb k key then Some c else own_property rest key
  end.

Definition in_keys (key : string) (keys : list string) : bool :=
  existsb (String.eqb key) keys.

(** Property read: own properties first, then the prototype. *)
Definition get_property (obj : list (string * ServiceConfig)) (key : string)
  : Looked :=
  match own_property obj key with
  | Some c => OwnEntry c
  | None => if in_keys key object_prototype_keys then Inherited key else Undefined
  end.

(** [!serviceConfig]: only [undefined] is falsy here; a configuration
    record, an inherited function and [Object.prototype] are all truthy. *)
Definition falsy (v : Looked) : bool :=
  match v with
  | Undefined => true
  | OwnEntry _ | Inherited _ => false
  end.

(** [serviceConfig.url]; none of the inherited values has a [url]. *)
Inductive JsUrl : Type :=
| UrlUndefined
| UrlString (s : string).

Definition url_of (v : Looked) : JsUrl :=
  match v with
  | OwnEntry c => UrlString (url c)
  | Inherited _ | Undefined => UrlUndefined
  end.

(** ** Effects *)

(** The optional third argument of [axios.post]: request headers and basic
    authentication. *)
Record AxiosRequestConfig : Type := mkAxiosRequestConfig {
  request_headers : list (string * string);
  auth : option (string * string)
}.

(** The calls the handler awaits or performs.  The index is the type of the
    value a call resolves with. *)
Inductive Event : Type -> Type :=
| authenticate_admin (request : Request) : Event unit
| request_formData (request : Request) : Event FormData
| new_Date_toISOString : Event string
| axios_post (target : JsUrl) (data : Json) (config : option AxiosRequestConfig)
    : Event Json
| console_error (label : string) (error : Thrown) : Event unit.

(** Programs: return, throw, or perform a call and continue with its
    outcome (a rejection or a value). *)
Inductive Eff (R : Type) : Type :=
| Ret (r : R)
| Throw (t : Thrown)
| Perform {A : Type} (e : Event A) (k : Thrown + A -> Eff R).

Arguments Ret {R} r.
Arguments Throw {R} t.
Arguments Perform {R A} e k.

Fixpoint bind {A B : Type} (p : Eff A) (f : A -> Eff B) : Eff B :=
  match p with
  | Ret a => f a
  | Throw t => Throw t
  | Perform e k => Perform e (fun r => bind (k r) f)
  end.

(** [await call]: a rejection is re-thrown at the point of the [await]. *)
Definition await {A : Type} (e : Event A) : Eff A :=
  Perform e (fun r => match r with inl t => Throw t | inr a => Ret a end).

(** [try { body } catch (error) { handler }] *)
Fixpoint try_catch {R : Type} (body : Eff R) (handler : Thrown -> Eff R) : Eff R :=
  match body with
  | Ret r => Ret r
  | Throw t => handler t
  | Perform e k => Perform e (fun r => try_catch (k r) handler)
  end.

Notation "x <- c1 ;; c2" := (bind c1 (fun x => c2))
  (at level 100, c1 at next level, right associativity).
Notation "c1 ;;; c2" := (bind c1 (fun _ => c2))
  (at level 100, right associativity).

(** ** The handler *)

Definition request_data (query : option FormDataEntryValue) (timestamp : string)
  : Json :=
  JObj [ ("query", entry_json query); ("timestamp", JStr timestamp) ].

Definition invalid_service_response : Response :=
  json (JObj [ ("error", JStr "Invalid service selected") ]) (Some 400%Z).

Definition success_response (data : Json) (service : option FormDataEntryValue)
  : Response :=
  json (JObj [ ("success", JBool true); ("data", data);
               ("service", entry_json service) ]) None.

Definition failure_response (error : Thrown) : Response :=
  json (JObj [ ("error", JStr "Failed to connect to backend service");
               ("details", JStr (error_details error)) ]) (Some 500%Z).

Definition action (env : gmap string string) (request : Request) : Eff Response :=
  await (authenticate_admin request) ;;;
  formData <- await (request_formData request) ;;
  let service := FormData_get formData "service" in
  let query := FormData_get formData "query" in
  try_catch
    (let serviceConfig :=
       get_property (BACKEND_CONFIG env) (to_property_key service) in
     if falsy serviceConfig then Ret invalid_service_response
     else
       timestamp <- await new_Date_toISOString ;;
       data <- await (axios_post (url_of serviceConfig)
                        (request_data query timestamp) None) ;;
       Ret (success_response data service))
    (fun error =>
       await (console_error "Backend API error:" error) ;;;
       Ret (failure_response error)).

(** ** Running a program against the outside world *)

(** The outside world: whether the session authenticates, what the clock
    reads, and how the service behind a URL answers a post. *)
Record World : Type := mkWorld {
  session : Request -> Thrown + unit;
  clock : string;
  backend : JsUrl -> Json -> option AxiosRequestConfig -> Thrown + Json
}.

Definition answer (w : World) {A : Type} (e : Event A) : Thrown + A :=
  match e in Event T return Thrown + T with
  | authenticate_admin request => session w request
  | request_formData request =>
      match body request with
      | Some fd => inr fd
      | None => inl (ErrorObject "Could not parse content as FormData.")
      end
  | new_Date_toISOString => inr (clock w)
  | axios_post target data config => backend w target data config
  | console_error _ _ => inr tt
  end.

(** What an observer of the process sees of a call. *)
Inductive Call : Type :=
| CallAuthenticate
| CallFormData
| CallClock
| CallAxiosPost (target : JsUrl) (data : Json) (config : option AxiosRequestConfig)
| CallConsoleError (label : string) (error : Thrown).

Definition observe {A : Type} (e : Event A) : Call :=
  match e with
  | authenticate_admin _ => CallAuthenticate
  | request_formData _ => CallFormData
  | new_Date_toISOString => CallClock
  | axios_post target data config => CallAxiosPost target data config
  | console_error label error => CallConsoleError label error
  end.

(** [run w p]: the value [p] resolves with (or the value it rejects with)
    and the calls it made, in order. *)
Fixpoint run {R : Type} (w : World) (p : Eff R) : (Thrown + R) * list Call :=
  match p with
  | Ret r => (inr r, [])
  | Throw t => (inl t, [])
  | Perform e k =>
      let '(outcome, calls) := run w (k (answer w e)) in
      (outcome, observe e :: calls)
  end.

Definition outcome {R : Type} (w : World) (p : Eff R) : Thrown + R := fst (run w p).
Definition calls {R : Type} (w : World) (p : Eff R) : list Call := snd (run w p).

(** The adapter calls among the calls made. *)
Definition is_adapter_call (c : Call) : bool :=
  match c with
  | CallAxiosPost _ _ _ => true
  | _ => false
  end.

Definition adapter_calls {R : Type} (w : World) (p : Eff R) : list Call :=
  List.filter is_adapter_call (calls w p).

(** The configuration entry a submitted form selects, and the answer of
    the outside world to the one post the handler makes for it. *)
Definition selected (env : gmap string string) (formData : FormData) : Looked :=
  get_property (BACKEND_CONFIG env)
    (to_property_key (FormData_get formData "service")).

Definition adapter_reply (w : World) (env : gmap string string)
    (formData : FormData) : Thrown + Json :=
  backend w (url_of (selected env formData))
    (request_data (FormData_get formData "query") (clock w)) None.

Definition adapter_post (w : World) (env : gmap string string)
    (formData : FormData) : Call :=
  CallAxiosPost (url_of (selected env formData))
    (request_data (FormData_get formData "query") (clock w)) None.

(** ** Sample inputs *)

Definition form_request (fields : FormData) : Request :=
  {| headers := []; body := Some fields |}.

Definition sample_env : gmap string string :=
  {[ "FINANCE_API_URL" := "https://finance.example/api" ]}.

(** A world whose backend answers every post with a JSON document. *)
Definition world_up : World :=
  {| session := fun _ => inr tt;
     clock := "2024-01-01T00:00:00.000Z";
     backend := fun _ _ _ => inr (JObj [ ("rate", JNum 3) ]) |}.

(** The same world with the backend unreachable. *)
Definition world_down : World :=
  {| session := fun _ => inr tt;
     clock := "2024-01-01T00:00:00.000Z";
     backend := fun _ _ _ => inl (ErrorObject "connect ECONNREFUSED") |}.

Definition finance_request : Request :=
  form_request [ ("service", EntryString "finance");
                 ("query", EntryString "how is the euro doing") ].

(** A submission whose query is not a commerce snapshot at all. *)
Definition malformed_request : Request :=
  form_request [ ("service", EntryString "finance");
                 ("query", EntryString "{Products: ") ].

(** An environment that also holds a provider credential. *)
Definition credential_env : gmap string string :=
  {[ "FINANCE_API_URL" := "https://finance.example/api";
     "FINANCE_API_KEY" := "sk-live-1" ]}.

End Route.

(* ===================================================================== *)
(** * Part II: the job engine                                             *)
(* ===================================================================== *)

Module Engine.

(** The engine is the FastAPI service of the Python backend
    ([backend_api_backup/frontend_api], with the Aggregator in
    [backend_api_backup/combined_insight]); the Remix app holds none of its
    code.  Every definition of this part is therefore written from the
    design document. *)

(** ** Data model *)

(** Modelled from the spec: the job status of the data model; the
    Orchestrator that owns it is part of the Python backend. *)
Inductive JobStatus : Type :=
| pending | running | completed | failed | timed_out.

(** Modelled from the spec: the per-source state ([pending], [ok], [error],
    [timeout]) of a [SourceResult]. *)
Inductive SourceState : Type :=
| src_pending | src_ok | src_error | src_timeout.

(** Modelled from the spec: the structured failure reasons of the
    [SourceFailure] class of the error taxonomy. *)
Inductive FailureReason : Type :=
| RateLimited | Unauthorized | Unreachable | SchemaViolation | Timeout.

(** Modelled from the spec: the [RawResult] an adapter's [fetch] resolves
    with, a success payload or a structured failure. *)
Inductive RawResult : Type :=
| Payload (raw : Route.Json)
| Failure (reason : FailureReason).

(** Modelled from the spec: the [SourceResult] record of the data model. *)
Record SourceResult : Type := mkSourceResult {
  source : string;
  state : SourceState;
  data : option Route.Json;
  error : option FailureReason;
  latencyMs : Z
}.

(** Modelled from the spec: the normalized metrics a per-source summarizer
    derives (a score per metric name); the formulas are left open. *)
Definition Metrics : Type := list (string * Z).

(** Modelled from the spec: a candidate insight before ranking, with its
    confidence and the sources that support it. *)
Record Candidate : Type := mkCandidate {
  text : string;
  confidence : Z;
  supporters : list string
}.

(** Modelled from the spec: the [CombinedInsight] record of the data model. *)
Record CombinedInsight : Type := mkCombinedInsight {
  perSourceSummary : gmap string Metrics;
  crossSourceCorrelations : list (string * string * Z);
  recommendations : list string;
  degraded : bool
}.

(** Modelled from the spec: the structured input of a job, the commerce
    snapshot, the natural-language text and the requested sources. *)
Record Query : Type := mkQuery {
  snapshot : Route.Json;
  question : string;
  sources : list string
}.

(** Modelled from the spec: the [Job] record of the data model. *)
Record Job : Type := mkJob {
  job_id : nat;
  status : JobStatus;
  progress : Z;
  query : Query;
  sourceResults : gmap string SourceResult;
  combinedInsight : option CombinedInsight;
  createdAt : Z;
  completedAt : option Z
}.

(** Modelled from the spec: the capability registry keyed on source name
    (schema validation, [summarize], correlation, and candidate synthesis
    with its confidence scores, which is where single-source candidates
    are down-weighted); [summarize] answers [None] where the summarizer
    raises. *)
Record Registry : Type := mkRegistry {
  schema_valid : string -> Route.Json -> bool;
  summarize : string -> Route.Json -> option Metrics;
  correlate : Metrics -> Metrics -> Z;
  propose : list (string * Metrics) -> list (string * string * Z) -> list Candidate
}.

(** Modelled from the spec: the terminal per-source states of the glossary
    ([ok], [error], [timeout]). *)
Definition is_terminal (s : SourceState) : bool :=
  match s with
  | src_pending => false
  | src_ok | src_error | src_timeout => true
  end.

(** Modelled from the spec: the terminal job states of the glossary
    ([completed], [failed], [timed_out]). *)
Definition is_final (s : JobStatus) : bool :=
  match s with
  | pending | running => false
  | completed | failed | timed_out => true
  end.

(** Modelled from the spec: a source result that is terminal, and one
    that succeeded ([state = ok]). *)
Definition terminal_result (r : SourceResult) : Prop := is_terminal (state r) = true.

Definition ok_result (r : SourceResult) : Prop := state r = src_ok.

#[global] Instance terminal_result_dec r : Decision (terminal_result r).
Proof. unfold terminal_result. apply _. Defined.

#[global] Instance SourceState_eq_dec : EqDecision SourceState.
Proof. solve_decision. Defined.

#[global] Instance JobStatus_eq_dec : EqDecision JobStatus.
Proof. solve_decision. Defined.

#[global] Instance ok_result_dec r : Decision (ok_result r).
Proof. unfold ok_result. apply _. Defined.

(** Modelled from the spec: [completedCount], the number of requested
    sources that have reached a terminal per-source state. *)
Definition completedCount (results : gmap string SourceResult) : nat :=
  size (filter (fun kv => terminal_result kv.2) results).

(** Modelled from the spec: the join condition of the fan-in, every source
    has reached a terminal per-source state. *)
Definition all_terminal (results : gmap string SourceResult) : bool :=
  bool_decide (map_Forall (fun _ r => terminal_result r) results).

(** Modelled from the spec: at least one source succeeded, and (the
    [degraded] condition) at least one entry is not [ok]. *)
Definition any_ok (results : gmap string SourceResult) : bool :=
  bool_decide (map_Exists (fun _ r => ok_result r) results).

Definition any_failed (results : gmap string SourceResult) : bool :=
  bool_decide (map_Exists (fun _ r => ~ ok_result r) results).

(** Modelled from the spec: [round(100 * completedCount / totalSources)],
    to the nearest integer with halves upward. *)
Definition percent (completed total : nat) : Z :=
  (2 * (100 * Z.of_nat completed) + Z.of_nat total) / (2 * Z.of_nat total).

(** ** Aggregator *)

(** Modelled from the spec: step 1 of the Aggregator, each successful
    source reduced to metrics by its summarizer; a source whose summarizer
    raises (or whose payload is missing) contributes nothing. *)
Definition summaries (reg : Registry) (results : gmap string SourceResult)
  : list (string * Metrics) :=
  omap (fun kv : string * SourceResult =>
          match state kv.2, data kv.2 with
          | src_ok, Some d => (fun m => (kv.1, m)) <$> summarize reg kv.1 d
          | _, _ => None
          end)
       (map_to_list results).

(** Modelled from the spec: step 2 of the Aggregator pairs every two
    successfully summarized sources. *)
Fixpoint pairs {A : Type} (l : list A) : list (A * A) :=
  match l with
  | [] => []
  | x :: rest => ((fun y => (x, y)) <$> rest) ++ pairs rest
  end.

(** Modelled from the spec: the cross-source correlations, one signal per
    pair of summarized sources. *)
Definition correlations (reg : Registry) (ms : list (string * Metrics))
  : list (string * string * Z) :=
  (fun p : (string * Metrics) * (string * Metrics) =>
     (p.1.1, p.2.1, correlate reg p.1.2 p.2.2)) <$> pairs ms.

(** Modelled from the spec: the ranking of recommendations, confidence
    descending, ties broken by the number of supporting sources,
    descending. *)
Definition ranks_before (c1 c2 : Candidate) : Prop :=
  (confidence c2 < confidence c1)%Z \/
  (confidence c1 = confidence c2 /\ length (supporters c2) <= length (supporters c1)).

#[global] Instance ranks_before_dec c1 c2 : Decision (ranks_before c1 c2).
Proof. unfold ranks_before. apply _. Defined.

(** Modelled from the spec: candidates put in ranking order (a stable
    sort). *)
Definition rank (candidates : list Candidate) : list Candidate :=
  merge_sort ranks_before candidates.

(** Modelled from the spec: the Aggregator (the insight engine of the
    Python backend, absent from the app). It answers [None] (an
    [AggregationFailure]) when zero sources succeeded, and otherwise the
    [CombinedInsight] built by steps 1 to 4. *)
Definition aggregate (reg : Registry) (results : gmap string SourceResult)
  : option CombinedInsight :=
  if any_ok results then
    let ms := summaries reg results in
    let cs := correlations reg ms in
    Some {| perSourceSummary := list_to_map ms;
            crossSourceCorrelations := cs;
            recommendations := text <$> rank (propose reg ms cs);
            degraded := any_failed results |}
  else None.

(** ** Job store *)

(** Modelled from the spec: what the operations of the Job API fail with. *)
Inductive EngineError : Type :=
| InvalidQuery
| JobNotFound.

(** Modelled from the spec: the Job Store (kept by the Python backend,
    absent from the app) with the identifiers issued so far (identifiers
    are generated at submission and never reused). *)
Record Store : Type := mkStore {
  jobs : gmap nat Job;
  issued : nat
}.

(** Modelled from the spec: the Job Store before any submission. *)
Definition empty_store : Store := {| jobs := ∅; issued := 0 |}.

(** Modelled from the spec: [get(jobId)] of the Job Store. *)
Definition get (id : nat) (st : Store) : EngineError + Job :=
  match jobs st !! id with
  | Some j => inr j
  | None => inl JobNotFound
  end.

(** Modelled from the spec: [create(job)] of the Job Store. *)
Definition create (j : Job) (st : Store) : Store :=
  {| jobs := <[job_id j := j]> (jobs st); issued := issued st |}.

(** Modelled from the spec: [update(jobId, mutation)] of the Job Store, one
    atomic read-modify-write of the job's record. *)
Definition update (id : nat) (mutation : Job -> Job) (st : Store)
  : EngineError + Store :=
  match jobs st !! id with
  | Some j => inr {| jobs := <[id := mutation j]> (jobs st); issued := issued st |}
  | None => inl JobNotFound
  end.

(** ** Orchestrator *)

(** Modelled from the spec: the commerce snapshot is well formed when it
    is a structure that holds [Products] and [Collections]. *)
Definition well_formed_snapshot (snap : Route.Json) : bool :=
  match snap with
  | Route.JObj fields =>
      existsb (fun kv => String.eqb kv.1 "Products") fields
      && existsb (fun kv => String.eqb kv.1 "Collections") fields
  | _ => false
  end.

(** Modelled from the spec: the validation of [submit], at least one
    requested source and a well-formed commerce snapshot. *)
Definition valid_query (q : Query) : bool :=
  match sources q with
  | [] => false
  | _ :: _ => well_formed_snapshot (snapshot q)
  end.

(** Modelled from the spec: the entry of a requested source before its
    adapter call resolves. *)
Definition blank_result (s : string) : SourceResult :=
  {| source := s; state := src_pending; data := None; error := None;
     latencyMs := 0 |}.

(** Modelled from the spec: the record created on submission, [pending],
    with one pending entry per requested source. *)
Definition new_job (id : nat) (q : Query) (now : Z) : Job :=
  {| job_id := id; status := pending; progress := 0; query := q;
     sourceResults := list_to_map ((fun s => (s, blank_result s)) <$> sources q);
     combinedInsight := None; createdAt := now; completedAt := None |}.

(** Modelled from the spec: what an operation of the engine answers, a
    job id, a failure, a job snapshot, or nothing. *)
Inductive Reply : Type :=
| Accepted (id : nat)
| Rejected (e : EngineError)
| Snapshot (j : Job)
| Done.

(** Modelled from the spec: [submit(query)] of the Orchestrator (the job
    endpoint of the Python backend, absent from the app). *)
Definition submit (q : Query) (now : Z) (st : Store) : Store * Reply :=
  if valid_query q then
    let id := issued st in
    (create (new_job id q now) {| jobs := jobs st; issued := S id |}, Accepted id)
  else (st, Rejected InvalidQuery).

(** Modelled from the spec: a status transition that changes nothing
    else of the record. *)
Definition set_status (s : JobStatus) (j : Job) : Job :=
  {| job_id := job_id j; status := s; progress := progress j; query := query j;
     sourceResults := sourceResults j; combinedInsight := combinedInsight j;
     createdAt := createdAt j; completedAt := completedAt j |}.

(** Modelled from the spec: the start of [dispatch(job)], which moves a
    pending job to [running]. *)
Definition dispatch (id : nat) (st : Store) : Store * Reply :=
  match update id (fun j => if decide (status j = pending) then set_status running j else j) st with
  | inr st' => (st', Done)
  | inl e => (st, Rejected e)
  end.

(** Modelled from the spec: the [SourceResult] recorded when an adapter
    call resolves; a payload that fails schema validation is recorded as
    an [error] with reason [SchemaViolation]. *)
Definition record_result (reg : Registry) (s : string) (raw : RawResult)
    (latency : Z) : SourceResult :=
  match raw with
  | Payload d =>
      if schema_valid reg s d
      then {| source := s; state := src_ok; data := Some d; error := None;
              latencyMs := latency |}
      else {| source := s; state := src_error; data := None;
              error := Some SchemaViolation; latencyMs := latency |}
  | Failure Timeout =>
      {| source := s; state := src_timeout; data := None; error := Some Timeout;
         latencyMs := latency |}
  | Failure reason =>
      {| source := s; state := src_error; data := None; error := Some reason;
         latencyMs := latency |}
  end.

(** Modelled from the spec: the terminal transition taken when every
    source is terminal; the Aggregator's output decides between
    [completed] and [failed], and [completedAt] is set. *)
Definition finish (reg : Registry) (now : Z) (j : Job) : Job :=
  if all_terminal (sourceResults j) then
    match aggregate reg (sourceResults j) with
    | Some insight =>
        {| job_id := job_id j; status := completed; progress := progress j;
           query := query j; sourceResults := sourceResults j;
           combinedInsight := Some insight;
           createdAt := createdAt j; completedAt := Some now |}
    | None =>
        {| job_id := job_id j; status := failed; progress := progress j;
           query := query j; sourceResults := sourceResults j;
           combinedInsight := None;
           createdAt := createdAt j; completedAt := Some now |}
    end
  else j.

(** Modelled from the spec: the mutation applied when the adapter call of
    source [s] resolves in a running job: the entry is updated, [progress]
    is recomputed, and the Aggregator runs once every source is terminal.
    A resolution for a source that is not pending, or for a job that is
    not running, changes nothing. *)
Definition source_resolved (reg : Registry) (s : string) (raw : RawResult)
    (latency now : Z) (j : Job) : Job :=
  match status j, state <$> sourceResults j !! s with
  | running, Some src_pending =>
      let results := <[s := record_result reg s raw latency]> (sourceResults j) in
      finish reg now
        {| job_id := job_id j; status := running;
           progress := percent (completedCount results) (size results);
           query := query j; sourceResults := results;
           combinedInsight := combinedInsight j;
           createdAt := createdAt j; completedAt := completedAt j |}
  | _, _ => j
  end.

(** Modelled from the spec: the resolution of an adapter call, applied
    through the store's atomic [update]. *)
Definition resolve (reg : Registry) (id : nat) (s : string) (raw : RawResult)
    (latency now : Z) (st : Store) : Store * Reply :=
  match update id (source_resolved reg s raw latency now) st with
  | inr st' => (st', Done)
  | inl e => (st, Rejected e)
  end.

(** Modelled from the spec: a source still outstanding at the job-level
    timeout is recorded as [timeout]. *)
Definition expire (r : SourceResult) : SourceResult :=
  if is_terminal (state r) then r
  else {| source := source r; state := src_timeout; data := None;
          error := Some Timeout; latencyMs := latencyMs r |}.

(** Modelled from the spec: the job-level timeout, which forces a job that
    is not yet terminal to [timed_out]. *)
Definition timed_out_job (now : Z) (j : Job) : Job :=
  if is_final (status j) then j
  else {| job_id := job_id j; status := timed_out; progress := progress j;
          query := query j; sourceResults := expire <$> sourceResults j;
          combinedInsight := combinedInsight j;
          createdAt := createdAt j; completedAt := Some now |}.

(** Modelled from the spec: the job-level timeout, applied through the
    store's atomic [update]. *)
Definition job_timeout (id : nat) (now : Z) (st : Store) : Store * Reply :=
  match update id (timed_out_job now) st with
  | inr st' => (st', Done)
  | inl e => (st, Rejected e)
  end.

(** Modelled from the spec: [status(jobId)], the polling operation of the
    Orchestrator (absent from the app). *)
Definition get_status (id : nat) (st : Store) : Store * Reply :=
  match get id st with
  | inr j => (st, Snapshot j)
  | inl e => (st, Rejected e)
  end.

(** Modelled from the spec: the polling endpoint
    [GET /api/chat/status/{job_id}], 404 for an unknown id. *)
Definition poll_http_status (r : Reply) : Z :=
  match r with
  | Rejected JobNotFound => 404
  | Rejected InvalidQuery => 400
  | Accepted _ | Snapshot _ | Done => 200
  end.

(** ** Histories *)

(** Modelled from the spec: the operations that reach the engine
    (submissions, dispatches, adapter resolutions, job-level timeouts and
    polls), serialized in the order they are applied. *)
Inductive Op : Type :=
| OpSubmit (q : Query) (now : Z)
| OpDispatch (id : nat)
| OpResolve (id : nat) (s : string) (raw : RawResult) (latency now : Z)
| OpJobTimeout (id : nat) (now : Z)
| OpStatus (id : nat).

(** Modelled from the spec: one operation applied to the store. *)
Definition apply_op (reg : Registry) (op : Op) (st : Store) : Store * Reply :=
  match op with
  | OpSubmit q now => submit q now st
  | OpDispatch id => dispatch id st
  | OpResolve id s raw latency now => resolve reg id s raw latency now st
  | OpJobTimeout id now => job_timeout id now st
  | OpStatus id => get_status id st
  end.

(** Modelled from the spec: a history of operations; [exec reg ops st] is
    the store after [ops] and the replies in order. *)
Fixpoint exec (reg : Registry) (ops : list Op) (st : Store) : Store * list Reply :=
  match ops with
  | [] => (st, [])
  | op :: rest =>
      let '(st1, r) := apply_op reg op st in
      let '(st2, rs) := exec reg rest st1 in
      (st2, r :: rs)
  end.

(** ** Invariants *)

(** Whether the job-level timeout of job [id] fires in a history. *)
Definition job_timeout_fired (id : nat) (ops : list Op) : bool :=
  existsb (fun op => match op with
                     | OpJobTimeout id' _ => Nat.eqb id' id
                     | _ => false
                     end) ops.

(** The job an operation mutates through the store's [update], and the
    mutation it applies. *)
Definition mutation_of (reg : Registry) (op : Op) : option (nat * (Job -> Job)) :=
  match op with
  | OpDispatch id =>
      Some (id, fun j => if decide (status j = pending) then set_status running j else j)
  | OpResolve id s raw latency now =>
      Some (id, source_resolved reg s raw latency now)
  | OpJobTimeout id now => Some (id, timed_out_job now)
  | OpSubmit _ _ | OpStatus _ => None
  end.

(** What every stored job satisfies: its progress is in range and, while
    the job is live, at most the percentage of terminal sources; a live job
    still waits for a source and has no insight; a completed job carries
    the Aggregator's output; a failed one has no successful source. *)
Record job_ok (reg : Registry) (j : Job) : Prop := mk_job_ok {
  progress_range : (0 <= progress j <= 100)%Z;
  progress_live :
    is_final (status j) = false ->
    (progress j <= percent (completedCount (sourceResults j))
                     (size (sourceResults j)))%Z;
  live_waits :
    is_final (status j) = false ->
    all_terminal (sourceResults j) = false /\ combinedInsight j = None;
  completed_insight :
    status j = completed ->
    any_ok (sourceResults j) = true /\
    combinedInsight j = aggregate reg (sourceResults j);
  failed_nothing :
    status j = failed ->
    any_ok (sourceResults j) = false /\ combinedInsight j = None
}.

(** Identifiers are issued in order, and every stored job is well formed. *)
Definition store_ok (reg : Registry) (st : Store) : Prop :=
  forall id j, jobs st !! id = Some j -> id < issued st /\ job_ok reg j.

(** ** Sample inputs *)

Definition sample_registry : Registry :=
  {| schema_valid := fun _ d => match d with Route.JObj _ => true | _ => false end;
     summarize := fun s d =>
       match d with
       | Route.JObj [(name, Route.JNum v)] => Some [(name, v)]
       | _ => None
       end;
     correlate := fun m1 m2 => Z.of_nat (length m1 + length m2);
     propose := fun ms _ =>
       (fun sm : string * Metrics =>
          {| text := sm.1; confidence := Z.of_nat (length sm.2);
             supporters := [sm.1] |}) <$> ms |}.

Definition sample_query : Query :=
  {| snapshot := Route.JObj [ ("Products", Route.JArr []); ("Collections", Route.JArr []) ];
     question := "which products trend this week";
     sources := ["finance"; "news"] |}.


(** Both sources answer before any timeout: [finance] with data, [news]
    with a provider error. *)
Definition degraded_scenario : list Op :=
  [ OpSubmit sample_query 0;
    OpDispatch 0;
    OpResolve 0 "finance" (Payload (Route.JObj [ ("rate", Route.JNum 3) ])) 50 50;
    OpStatus 0;
    OpResolve 0 "news" (Failure Unreachable) 70 70;
    OpStatus 0 ].


End Engine.

(* ===================================================================== *)
(** * Part III: the rest of the app                                       *)
(* ===================================================================== *)

(** ** [app/routes/api.backend.ts]: the loader and the page *)

Module RouteView.
Import Route.

(** What a configuration record serialises to. *)
Definition config_json (c : ServiceConfig) : Json :=
  JObj [ ("url", JStr (url c)); ("description", JStr (description c)) ].

Definition backendServices_json (table : list (string * ServiceConfig)) : Json :=
  JObj (List.map (fun kc : string * ServiceConfig => (kc.1, config_json kc.2)) table).

(** [loader]: authenticate, then publish the configuration table. *)
Definition loader (env : gmap string string) (request : Request) : Eff Response :=
  await (authenticate_admin request) ;;;
  Ret (json (JObj [ ("backendServices", backendServices_json (BACKEND_CONFIG env)) ])
            None).

(** Reading the property [key] of a parsed JSON value, [None] for
    [undefined].  The names read below ([data], [error], [details],
    [success], [service], [url], [shop]) are defined by no built-in
    prototype, so only an object's own fields can answer. *)
Fixpoint own_field (fields : list (string * Json)) (key : string) : option Json :=
  match fields with
  | [] => None
  | (k, v) :: rest => if String.eqb k key then Some v else own_field rest key
  end.

Definition json_get (v : Json) (key : string) : option Json :=
  match v with
  | JObj fields => own_field fields key
  | _ => None
  end.

(** [v.k1.k2...], [None] as soon as a step finds nothing. *)
Fixpoint json_path (v : Json) (keys : list string) : option Json :=
  match keys with
  | [] => Some v
  | key :: rest =>
      match json_get v key with
      | Some v' => json_path v' rest
      | None => None
      end
  end.

(** [actionData?.key], where [actionData] is [undefined] before the first
    submission. *)
Definition optional_get (actionData : option Json) (key : string) : option Json :=
  match actionData with
  | Some v => json_get v key
  | None => None
  end.

(** JavaScript truthiness of a value that came out of JSON. *)
Definition truthy (v : option Json) : bool :=
  match v with
  | None | Some JNull => false
  | Some (JBool b) => b
  | Some (JNum z) => negb (Z.eqb z 0)
  | Some (JStr s) => negb (String.eqb s "")
  | Some (JArr _) | Some (JObj _) => true
  end.

(** [c.toUpperCase()] for one ASCII character. *)
Definition toUpperCase_char (c : ascii) : ascii :=
  let n := nat_of_ascii c in
  if Nat.leb 97 n && Nat.leb n 122 then ascii_of_nat (n - 32) else c.

(** [key.charAt(0).toUpperCase() + key.slice(1)], for ASCII keys. *)
Definition capitalize (key : string) : string :=
  match key with
  | EmptyString => ""
  | String c rest => String (toUpperCase_char c) rest
  end.

Record SelectOption : Type := mkSelectOption {
  label : string;
  value : string
}.

(** [serviceOptions]: one option per entry of the table, in order. *)
Definition serviceOptions (backendServices : list (string * ServiceConfig))
  : list SelectOption :=
  List.map (fun kc : string * ServiceConfig =>
              {| label := capitalize kc.1 ++ " API"; value := kc.1 |})
           backendServices.

(** A cell of the response table: fixed text, or a value handed to the
    table as it is. *)
Inductive Cell : Type :=
| CellText (s : string)
| CellValue (v : option Json).

(** [rows]; [stringify] stands for [JSON.stringify(_, null, 2)]. *)
Definition rows (stringify : Json -> string) (actionData : option Json)
  : list (list Cell) :=
  match optional_get actionData "data" with
  | Some data =>
      if truthy (Some data) then
        [ [ CellText "Service"; CellValue (optional_get actionData "service") ];
          [ CellText "Status";
            CellText (if truthy (optional_get actionData "success")
                      then "Success" else "Error") ];
          [ CellText "Response"; CellText (stringify data) ] ]
      else []
  | None => []
  end.

(** An entry of the "Available Services" list. *)
Record ServiceItem : Type := mkServiceItem {
  heading : string;
  blurb : string;
  badge : string
}.

(** What the page shows: the options of the select, the error card (the
    error and, when truthy, the details), the response card with its table
    rows, and the list of services. *)
Record View : Type := mkView {
  select_options : list SelectOption;
  error_card : option (option Json * option Json);
  response_card : option (list (list Cell));
  available_services : list ServiceItem
}.

Definition BackendAPI (stringify : Json -> string)
    (backendServices : list (string * ServiceConfig)) (actionData : option Json)
  : View :=
  {| select_options := serviceOptions backendServices;
     error_card :=
       if truthy (optional_get actionData "error")
       then Some (optional_get actionData "error",
                  if truthy (optional_get actionData "details")
                  then optional_get actionData "details" else None)
       else None;
     response_card :=
       if truthy (optional_get actionData "success")
       then Some (rows stringify actionData)
       else None;
     available_services :=
       List.map (fun kc : string * ServiceConfig =>
                   {| heading := capitalize kc.1 ++ " API";
                      blurb := description kc.2;
                      badge := if String.eqb (url kc.2) ""
                               then "URL not configured" else url kc.2 |})
                backendServices |}.

End RouteView.

(** ** [app/routes/_index.tsx]: the loader of the dashboard *)

Module IndexRoute.
Import Route.

(** The GraphQL document the loader sends. *)
Definition shop_query : string :=
  "#graphql
      query {
        shop {
          name
          plan {
            displayName
            partnerDevelopment
            shopifyPlus
          }
        }
      }".

(** The response of [admin.graphql]: what its [json()] settles with. *)
Record FetchResponse : Type := mkFetchResponse {
  json_result : Thrown + Json
}.

Inductive Event : Type -> Type :=
| authenticate_admin (request : Request) : Event unit
| admin_graphql (query : string) : Event FetchResponse
| response_json (response : FetchResponse) : Event Json.

Inductive Prog (R : Type) : Type :=
| Ret (r : R)
| Throw (t : Thrown)
| Perform {A : Type} (e : Event A) (k : Thrown + A -> Prog R).

Arguments Ret {R} r.
Arguments Throw {R} t.
Arguments Perform {R A} e k.

Fixpoint bind {A B : Type} (p : Prog A) (f : A -> Prog B) : Prog B :=
  match p with
  | Ret a => f a
  | Throw t => Throw t
  | Perform e k => Perform e (fun r => bind (k r) f)
  end.

Definition await {A : Type} (e : Event A) : Prog A :=
  Perform e (fun r => match r with inl t => Throw t | inr a => Ret a end).

(** [value.key] for a value that may be [undefined]: reading a property of
    [undefined] or [null] throws a [TypeError]; a number, string, boolean or
    array has no property of the names read here. *)
Definition member (v : option Json) (key : string) : Prog (option Json) :=
  match v with
  | None =>
      Throw (ErrorObject
               ("Cannot read properties of undefined (reading '" ++ key ++ "')"))
  | Some JNull =>
      Throw (ErrorObject
               ("Cannot read properties of null (reading '" ++ key ++ "')"))
  | Some j => Ret (RouteView.json_get j key)
  end.

(** [json({ shop })]: a property whose value is [undefined] is left out. *)
Definition shop_payload (shop : option Json) : Json :=
  JObj (match shop with
        | Some v => [ ("shop", v) ]
        | None => []
        end).

Definition loader (request : Request) : Prog Response :=
  bind (await (authenticate_admin request)) (fun _ =>
  bind (await (admin_graphql shop_query)) (fun response =>
  bind (await (response_json response)) (fun responseJson =>
  bind (member (Some responseJson) "data") (fun data =>
  bind (member data "shop") (fun shop =>
  Ret (json (shop_payload shop) None)))))).

(** The outside world of this route: the session check and the Admin API. *)
Record World : Type := mkWorld {
  session : Request -> Thrown + unit;
  graphql : string -> Thrown + FetchResponse
}.

Definition answer (w : World) {A : Type} (e : Event A) : Thrown + A :=
  match e in Event T return Thrown + T with
  | authenticate_admin request => session w request
  | admin_graphql query => graphql w query
  | response_json response => json_result response
  end.

Inductive Call : Type :=
| CallAuthenticate
| CallGraphql (query : string)
| CallJson.

Definition observe {A : Type} (e : Event A) : Call :=
  match e with
  | authenticate_admin _ => CallAuthenticate
  | admin_graphql query => CallGraphql query
  | response_json _ => CallJson
  end.

Fixpoint run {R : Type} (w : World) (p : Prog R) : (Thrown + R) * list Call :=
  match p with
  | Ret r => (inr r, [])
  | Throw t => (inl t, [])
  | Perform e k =>
      let '(result, calls) := run w (k (answer w e)) in
      (result, observe e :: calls)
  end.

(** A store whose Admin API answers with the shop, and one that answers
    with GraphQL errors and no data. *)
Definition shop_world : World :=
  {| session := fun _ => inr tt;
     graphql := fun _ =>
       inr {| json_result :=
                inr (JObj [ ("data",
                             JObj [ ("shop", JObj [ ("name", JStr "Demo") ]) ]) ]) |} |}.

Definition throttled_world : World :=
  {| session := fun _ => inr tt;
     graphql := fun _ =>
       inr {| json_result :=
                inr (JObj [ ("errors", JArr [ JStr "Throttled" ]) ]) |} |}.

End IndexRoute.

(* ===================================================================== *)
(** * Facts about the route handler                                       *)
(* ===================================================================== *)

Module RouteFacts.
Import Route.

(** ** The configuration table *)

Lemma own_property_BACKEND_CONFIG env key :
  own_property (BACKEND_CONFIG env) key =
  if in_keys key service_names
  then Some {| url := env_or_empty env (url_variable key);
               description := service_description key |}
  else None.
Proof.
  unfold in_keys, service_names, url_variable, service_description;
    cbn [existsb BACKEND_CONFIG own_property].
  rewrite !(String.eqb_sym key).
  repeat match goal with
    | |- context [String.eqb ?name key] =>
        destruct (String.eqb name key); cbn [orb]; [ reflexivity | ]
    end.
  reflexivity.
Qed.

Lemma in_keys_In key keys : in_keys key keys = true <-> In key keys.
Proof.
  unfold in_keys. rewrite existsb_exists. split.
  - intros (k & Hin & Heq). apply String.eqb_eq in Heq. now subst.
  - intros Hin. exists key. split; [ assumption | apply String.eqb_refl ].
Qed.

(** No source name is the name of an inherited property. *)
Lemma service_names_not_inherited key :
  in_keys key service_names = true -> in_keys key object_prototype_keys = false.
Proof.
  intros H. apply in_keys_In in H. cbn in H.
  repeat (destruct H as [<- | H]; [ reflexivity | ]). contradiction.
Qed.

(** The three ways the lookup [BACKEND_CONFIG[key]] can go. *)
Lemma get_property_cases env key :
  get_property (BACKEND_CONFIG env) key =
  if in_keys key service_names
  then OwnEntry {| url := env_or_empty env (url_variable key);
                   description := service_description key |}
  else if in_keys key object_prototype_keys then Inherited key
  else Undefined.
Proof.
  unfold get_property. rewrite own_property_BACKEND_CONFIG.
  destruct (in_keys key service_names); reflexivity.
Qed.

(** The table reads the six URL variables and nothing else. *)
Lemma BACKEND_CONFIG_reads_urls_only env env' :
  (forall service, In service service_names ->
     env' !! url_variable service = env !! url_variable service) ->
  BACKEND_CONFIG env' = BACKEND_CONFIG env.
Proof.
  intros Hsame. unfold BACKEND_CONFIG, env_or_empty.
  assert (Hvar : forall service, In service service_names ->
            env' !! url_variable service = env !! url_variable service)
    by exact Hsame.
  pose proof (Hvar "finance") as Hfinance; pose proof (Hvar "news") as Hnews;
    pose proof (Hvar "trends") as Htrends; pose proof (Hvar "meta") as Hmeta;
    pose proof (Hvar "tiktok") as Htiktok; pose proof (Hvar "weather") as Hweather.
  cbn in Hfinance, Hnews, Htrends, Hmeta, Htiktok, Hweather.
  rewrite Hfinance, Hnews, Htrends, Hmeta, Htiktok, Hweather by tauto.
  reflexivity.
Qed.

(** ** The runs of [action], path by path *)

Section Runs.
Variable env : gmap string string.
Variable w : World.
Variable request : Request.

Lemma run_action_unauthenticated t :
  session w request = inl t ->
  run w (action env request) = (inl t, [CallAuthenticate]).
Proof. intros Hs. unfold action; cbn. rewrite Hs. reflexivity. Qed.

Lemma run_action_unparsed :
  session w request = inr tt -> body request = None ->
  run w (action env request) =
  (inl (ErrorObject "Could not parse content as FormData."),
   [CallAuthenticate; CallFormData]).
Proof. intros Hs Hb. unfold action; cbn. rewrite Hs; cbn. rewrite Hb. reflexivity. Qed.

Variable formData : FormData.
Hypothesis authenticated : session w request = inr tt.
Hypothesis parsed : body request = Some formData.

Lemma run_action_invalid :
  falsy (selected env formData) = true ->
  run w (action env request) =
  (inr invalid_service_response, [CallAuthenticate; CallFormData]).
Proof.
  intros Hf. unfold action; cbn. rewrite authenticated; cbn. rewrite parsed; cbn.
  fold (selected env formData). rewrite Hf. reflexivity.
Qed.

Lemma run_action_resolved data :
  falsy (selected env formData) = false ->
  adapter_reply w env formData = inr data ->
  run w (action env request) =
  (inr (success_response data (FormData_get formData "service")),
   [CallAuthenticate; CallFormData; CallClock; adapter_post w env formData]).
Proof.
  intros Hf Hb. unfold action; cbn. rewrite authenticated; cbn. rewrite parsed; cbn.
  fold (selected env formData). rewrite Hf; cbn.
  unfold adapter_reply in Hb. rewrite Hb. reflexivity.
Qed.

Lemma run_action_rejected error :
  falsy (selected env formData) = false ->
  adapter_reply w env formData = inl error ->
  run w (action env request) =
  (inr (failure_response error),
   [CallAuthenticate; CallFormData; CallClock; adapter_post w env formData;
    CallConsoleError "Backend API error:" error]).
Proof.
  intros Hf Hb. unfold action; cbn. rewrite authenticated; cbn. rewrite parsed; cbn.
  fold (selected env formData). rewrite Hf; cbn.
  unfold adapter_reply in Hb. rewrite Hb. reflexivity.
Qed.

(** Past authentication and parsing the handler always resolves, along one
    of three paths. *)
Lemma run_action_paths :
  run w (action env request) =
  if falsy (selected env formData)
  then (inr invalid_service_response, [CallAuthenticate; CallFormData])
  else match adapter_reply w env formData with
       | inr data =>
           (inr (success_response data (FormData_get formData "service")),
            [CallAuthenticate; CallFormData; CallClock; adapter_post w env formData])
       | inl error =>
           (inr (failure_response error),
            [CallAuthenticate; CallFormData; CallClock; adapter_post w env formData;
             CallConsoleError "Backend API error:" error])
       end.
Proof.
  destruct (falsy (selected env formData)) eqn:Hf.
  - now apply run_action_invalid.
  - destruct (adapter_reply w env formData) as [error | data] eqn:Hb.
    + now apply run_action_rejected.
    + now apply run_action_resolved.
Qed.

End Runs.

Lemma selected_own env formData service :
  In service service_names ->
  FormData_get formData "service" = Some (EntryString service) ->
  selected env formData =
  OwnEntry {| url := env_or_empty env (url_variable service);
              description := service_description service |}.
Proof.
  intros Hin Hget. unfold selected. rewrite Hget; cbn [to_property_key].
  rewrite get_property_cases.
  apply in_keys_In in Hin. rewrite Hin. reflexivity.
Qed.

Lemma selected_undefined env formData :
  in_keys (to_property_key (FormData_get formData "service")) service_names = false ->
  in_keys (to_property_key (FormData_get formData "service")) object_prototype_keys = false ->
  selected env formData = Undefined.
Proof.
  intros Hs Hp. unfold selected. rewrite get_property_cases, Hs, Hp. reflexivity.
Qed.

(** A name inherited from [Object.prototype] selects the inherited value,
    not [undefined]. *)
Lemma selected_inherited env formData key :
  in_keys key object_prototype_keys = true ->
  FormData_get formData "service" = Some (EntryString key) ->
  selected env formData = Inherited key.
Proof.
  intros Hproto Hget. unfold selected. rewrite Hget; cbn [to_property_key].
  rewrite get_property_cases.
  destruct (in_keys key service_names) eqn:Hname.
  - apply service_names_not_inherited in Hname. congruence.
  - rewrite Hproto. reflexivity.
Qed.

(** A configured source whose URL variable is unset is still posted to, at
    the empty URL, and a failure of that call is answered with the 500. *)
Lemma unset_url_is_still_posted env w request formData service error :
  In service service_names ->
  env !! url_variable service = None ->
  session w request = inr tt ->
  body request = Some formData ->
  FormData_get formData "service" = Some (EntryString service) ->
  backend w (UrlString "") (request_data (FormData_get formData "query") (clock w)) None
    = inl error ->
  run w (action env request) =
  (inr (failure_response error),
   [ CallAuthenticate; CallFormData; CallClock;
     CallAxiosPost (UrlString "")
       (request_data (FormData_get formData "query") (clock w)) None;
     CallConsoleError "Backend API error:" error ]).
Proof.
  intros Hin Hunset Hs Hb Hget Hfail.
  pose proof (selected_own env formData service Hin Hget) as Hsel.
  unfold env_or_empty in Hsel. rewrite Hunset in Hsel.
  rewrite (run_action_paths env w request formData Hs Hb).
  unfold adapter_reply, adapter_post. rewrite Hsel; cbn [falsy url_of url].
  rewrite Hfail. reflexivity.
Qed.

(** ** The claims about the handler *)

(** C1, as stated, fails: the value returned for a valid submission depends
    on the adapter's answer.  Two worlds that differ only in how the
    finance backend answers give the same submission two different
    responses, a 200 carrying the payload and a 500. *)
Lemma response_depends_on_adapter_reply :
  session world_up = session world_down /\
  clock world_up = clock world_down /\
  outcome world_up (action sample_env finance_request) =
    inr {| status := 200;
           payload := JObj [ ("success", JBool true);
                             ("data", JObj [ ("rate", JNum 3) ]);
                             ("service", JStr "finance") ] |} /\
  outcome world_down (action sample_env finance_request) =
    inr {| status := 500;
           payload := JObj [ ("error", JStr "Failed to connect to backend service");
                             ("details", JStr "connect ECONNREFUSED") ] |}.
Proof. repeat split. Qed.

(** C1, amended: for every submission that names a configured service the
    handler makes exactly one adapter call, awaits it, and answers with
    what that call gave: the adapter's payload in a 200 response, or a 500
    response when the call failed.  No job id is issued. *)
Theorem action_awaits_the_adapter env w request formData config :
  session w request = inr tt ->
  body request = Some formData ->
  selected env formData = OwnEntry config ->
  adapter_calls w (action env request) =
    [ CallAxiosPost (UrlString (url config))
        (request_data (FormData_get formData "query") (clock w)) None ] /\
  outcome w (action env request) =
    inr (match backend w (UrlString (url config))
                 (request_data (FormData_get formData "query") (clock w)) None with
         | inr data => success_response data (FormData_get formData "service")
         | inl error => failure_response error
         end).
Proof.
  intros Hs Hb Hsel.
  unfold adapter_calls, calls, outcome.
  rewrite (run_action_paths env w request formData Hs Hb).
  unfold adapter_reply, adapter_post. rewrite Hsel; cbn [falsy url_of].
  destruct (backend w _ _ _) as [error | data]; split; reflexivity.
Qed.

Lemma action_awaits_the_adapter_witness :
  adapter_calls world_up (action sample_env finance_request) =
    [ CallAxiosPost (UrlString "https://finance.example/api")
        (request_data (Some (EntryString "how is the euro doing"))
           "2024-01-01T00:00:00.000Z") None ] /\
  outcome world_up (action sample_env finance_request) =
    inr (success_response (JObj [ ("rate", JNum 3) ]) (Some (EntryString "finance"))).
Proof.
  exact (action_awaits_the_adapter sample_env world_up finance_request
           [ ("service", EntryString "finance");
             ("query", EntryString "how is the euro doing") ]
           {| url := "https://finance.example/api";
              description := "Financial data and currency analysis" |}
           eq_refl eq_refl eq_refl).
Defined.

(** C2, as stated, fails: an adapter failure is surfaced to the caller as
    an error response.  With the finance backend unreachable the caller
    receives a 500 whose body names the failure. *)
Lemma adapter_failure_reaches_the_caller :
  run world_down (action sample_env finance_request) =
  (inr {| status := 500;
          payload := JObj [ ("error", JStr "Failed to connect to backend service");
                            ("details", JStr "connect ECONNREFUSED") ] |},
   [ CallAuthenticate; CallFormData; CallClock;
     CallAxiosPost (UrlString "https://finance.example/api")
       (request_data (Some (EntryString "how is the euro doing"))
          "2024-01-01T00:00:00.000Z") None;
     CallConsoleError "Backend API error:" (ErrorObject "connect ECONNREFUSED") ]).
Proof. reflexivity. Qed.

(** C2, amended: past authentication and form parsing the handler never
    re-raises; it always resolves with a response.  An adapter failure is
    caught, logged, and answered synchronously with a 500 response that
    carries the failure's message; the only other error response is the
    400 given when the service field selects nothing, in which case no
    adapter was called. *)
Theorem adapter_failure_is_answered_not_raised env w request formData :
  session w request = inr tt ->
  body request = Some formData ->
  exists response,
    outcome w (action env request) = inr response /\
    ( (falsy (selected env formData) = true /\
       response = invalid_service_response /\ status response = 400%Z /\
       adapter_calls w (action env request) = [])
      \/
      (falsy (selected env formData) = false /\
       exists error,
         adapter_reply w env formData = inl error /\
         response = failure_response error /\ status response = 500%Z /\
         payload response =
           JObj [ ("error", JStr "Failed to connect to backend service");
                  ("details", JStr (error_details error)) ] /\
         In (CallConsoleError "Backend API error:" error) (calls w (action env request)))
      \/
      (falsy (selected env formData) = false /\
       exists data,
         adapter_reply w env formData = inr data /\
         response = success_response data (FormData_get formData "service") /\
         status response = 200%Z) ).
Proof.
  intros Hs Hb.
  unfold outcome, adapter_calls, calls.
  rewrite (run_action_paths env w request formData Hs Hb).
  destruct (falsy (selected env formData)) eqn:Hf.
  - exists invalid_service_response. split; [ reflexivity | ].
    left. repeat split.
  - destruct (adapter_reply w env formData) as [error | data] eqn:Hr.
    + exists (failure_response error). split; [ reflexivity | ].
      right; left. split; [ reflexivity | ].
      exists error. repeat split. cbn. tauto.
    + exists (success_response data (FormData_get formData "service")).
      split; [ reflexivity | ].
      right; right. split; [ reflexivity | ].
      exists data. repeat split.
Qed.

Lemma adapter_failure_is_answered_not_raised_witness :
  exists response,
    outcome world_down (action sample_env finance_request) = inr response /\
    ( (falsy (selected sample_env
                [ ("service", EntryString "finance");
                  ("query", EntryString "how is the euro doing") ]) = true /\
       response = invalid_service_response /\ status response = 400%Z /\
       adapter_calls world_down (action sample_env finance_request) = [])
      \/
      (falsy (selected sample_env
                [ ("service", EntryString "finance");
                  ("query", EntryString "how is the euro doing") ]) = false /\
       exists error,
         adapter_reply world_down sample_env
           [ ("service", EntryString "finance");
             ("query", EntryString "how is the euro doing") ] = inl error /\
         response = failure_response error /\ status response = 500%Z /\
         payload response =
           JObj [ ("error", JStr "Failed to connect to backend service");
                  ("details", JStr (error_details error)) ] /\
         In (CallConsoleError "Backend API error:" error)
            (calls world_down (action sample_env finance_request)))
      \/
      (falsy (selected sample_env
                [ ("service", EntryString "finance");
                  ("query", EntryString "how is the euro doing") ]) = false /\
       exists data,
         adapter_reply world_down sample_env
           [ ("service", EntryString "finance");
             ("query", EntryString "how is the euro doing") ] = inr data /\
         response = success_response data
                      (FormData_get [ ("service", EntryString "finance");
                                      ("query", EntryString "how is the euro doing") ]
                         "service") /\
         status response = 200%Z) ).
Proof.
  exact (adapter_failure_is_answered_not_raised sample_env world_down finance_request
           [ ("service", EntryString "finance");
             ("query", EntryString "how is the euro doing") ]
           eq_refl eq_refl).
Defined.

(** C4, as stated, fails: a submission whose query is no commerce snapshot
    is not rejected.  The query text is forwarded to the adapter as it is
    and the caller receives a 200. *)
Lemma malformed_snapshot_is_accepted :
  run world_up (action sample_env malformed_request) =
  (inr {| status := 200;
          payload := JObj [ ("success", JBool true);
                            ("data", JObj [ ("rate", JNum 3) ]);
                            ("service", JStr "finance") ] |},
   [ CallAuthenticate; CallFormData; CallClock;
     CallAxiosPost (UrlString "https://finance.example/api")
       (JObj [ ("query", JStr "{Products: ");
               ("timestamp", JStr "2024-01-01T00:00:00.000Z") ]) None ]).
Proof. reflexivity. Qed.

(** C4, amended: a submission whose service field is absent, is a file, or
    is a name that is neither one of the six sources nor the name of a
    property that every object inherits, is answered with the 400 response
    "Invalid service selected", and no adapter is called.  The query is
    not validated. *)
Theorem unresolved_service_is_rejected env w request formData :
  session w request = inr tt ->
  body request = Some formData ->
  in_keys (to_property_key (FormData_get formData "service")) service_names = false ->
  in_keys (to_property_key (FormData_get formData "service")) object_prototype_keys = false ->
  run w (action env request) =
    (inr invalid_service_response, [ CallAuthenticate; CallFormData ]) /\
  status invalid_service_response = 400%Z /\
  payload invalid_service_response = JObj [ ("error", JStr "Invalid service selected") ] /\
  adapter_calls w (action env request) = [].
Proof.
  intros Hs Hb Hnames Hproto.
  assert (Hrun : run w (action env request) =
                 (inr invalid_service_response, [ CallAuthenticate; CallFormData ])).
  { apply (run_action_invalid env w request formData Hs Hb).
    rewrite (selected_undefined env formData Hnames Hproto). reflexivity. }
  unfold adapter_calls, calls. rewrite Hrun. repeat split.
Qed.

Lemma unresolved_service_is_rejected_witness :
  run world_up (action sample_env
                  (form_request [ ("service", EntryString "crypto");
                                  ("query", EntryString "btc") ])) =
    (inr invalid_service_response, [ CallAuthenticate; CallFormData ]) /\
  status invalid_service_response = 400%Z /\
  payload invalid_service_response = JObj [ ("error", JStr "Invalid service selected") ] /\
  adapter_calls world_up
    (action sample_env
       (form_request [ ("service", EntryString "crypto");
                       ("query", EntryString "btc") ])) = [].
Proof.
  exact (unresolved_service_is_rejected sample_env world_up
           (form_request [ ("service", EntryString "crypto");
                           ("query", EntryString "btc") ])
           [ ("service", EntryString "crypto"); ("query", EntryString "btc") ]
           eq_refl eq_refl eq_refl eq_refl).
Defined.

(** C8: every adapter call the handler makes carries exactly the two-field
    body of the user query and the ISO timestamp read from the clock, with
    no further request configuration; and the adapter's reply is consumed
    either as a JSON payload, forwarded under [data], or as an error whose
    message is reported under [details]. *)
Theorem adapter_request_is_query_and_timestamp env w request target data config :
  In (CallAxiosPost target data config) (calls w (action env request)) ->
  exists formData,
    body request = Some formData /\
    data = JObj [ ("query", entry_json (FormData_get formData "query"));
                  ("timestamp", JStr (clock w)) ] /\
    config = None /\
    outcome w (action env request) =
      inr (match backend w target data config with
           | inr reply =>
               json (JObj [ ("success", JBool true); ("data", reply);
                            ("service", entry_json (FormData_get formData "service")) ])
                    None
           | inl error =>
               json (JObj [ ("error", JStr "Failed to connect to backend service");
                            ("details", JStr (error_details error)) ])
                    (Some 500%Z)
           end).
Proof.
  unfold calls, outcome. intros Hin.
  destruct (session w request) as [t | []] eqn:Hs.
  { rewrite (run_action_unauthenticated env w request t Hs) in Hin.
    cbn in Hin. destruct Hin as [Hin | []]. discriminate Hin. }
  destruct (body request) as [formData | ] eqn:Hb.
  2:{ rewrite (run_action_unparsed env w request Hs Hb) in Hin.
      cbn in Hin. destruct Hin as [Hin | [Hin | []]]; discriminate Hin. }
  exists formData. split; [ reflexivity | ].
  rewrite (run_action_paths env w request formData Hs Hb) in *.
  destruct (falsy (selected env formData)).
  { cbn in Hin. destruct Hin as [Hin | [Hin | []]]; discriminate Hin. }
  unfold adapter_reply, adapter_post in *.
  destruct (backend w (url_of (selected env formData)) _ None)
    as [error | reply] eqn:Hr; cbn in Hin;
    repeat (destruct Hin as [Hin | Hin]; [ try discriminate Hin | ]);
    try contradiction;
    injection Hin as <- <- <-; rewrite Hr; repeat split.
Qed.

Lemma adapter_request_is_query_and_timestamp_witness :
  exists formData,
    body finance_request = Some formData /\
    JObj [ ("query", JStr "how is the euro doing");
           ("timestamp", JStr "2024-01-01T00:00:00.000Z") ] =
    JObj [ ("query", entry_json (FormData_get formData "query"));
           ("timestamp", JStr (clock world_up)) ] /\
    @None AxiosRequestConfig = None /\
    outcome world_up (action sample_env finance_request) =
      inr (match backend world_up (UrlString "https://finance.example/api")
                   (JObj [ ("query", JStr "how is the euro doing");
                           ("timestamp", JStr "2024-01-01T00:00:00.000Z") ]) None with
           | inr reply =>
               json (JObj [ ("success", JBool true); ("data", reply);
                            ("service", entry_json (FormData_get formData "service")) ])
                    None
           | inl error =>
               json (JObj [ ("error", JStr "Failed to connect to backend service");
                            ("details", JStr (error_details error)) ])
                    (Some 500%Z)
           end).
Proof.
  apply (adapter_request_is_query_and_timestamp sample_env world_up finance_request).
  cbn. tauto.
Defined.

(** C9, as stated, fails: no credential is configured for a source and
    none is sent.  With a provider key present in the environment the
    configuration table is the one obtained without it, and the one adapter
    call made carries no request configuration (no headers, no
    authentication). *)
Lemma no_credential_is_configured_or_sent :
  BACKEND_CONFIG credential_env = BACKEND_CONFIG sample_env /\
  own_property (BACKEND_CONFIG credential_env) "finance" =
    Some {| url := "https://finance.example/api";
            description := "Financial data and currency analysis" |} /\
  adapter_calls world_up (action credential_env finance_request) =
    [ CallAxiosPost (UrlString "https://finance.example/api")
        (JObj [ ("query", JStr "how is the euro doing");
                ("timestamp", JStr "2024-01-01T00:00:00.000Z") ])
        None ].
Proof. repeat split. Qed.

(** C9, amended: every source is configured from the environment with
    exactly one base URL (the empty string when its variable is unset or
    empty) and a fixed description, and with no credential: the table
    depends on the six URL variables only.  The adapter call for a selected
    source targets that source's configured base URL and carries no
    credential. *)
Theorem source_targets_its_configured_url env w request formData service :
  In service service_names ->
  session w request = inr tt ->
  body request = Some formData ->
  FormData_get formData "service" = Some (EntryString service) ->
  own_property (BACKEND_CONFIG env) service =
    Some {| url := env_or_empty env (url_variable service);
            description := service_description service |} /\
  (forall env',
     (forall s, In s service_names -> env' !! url_variable s = env !! url_variable s) ->
     BACKEND_CONFIG env' = BACKEND_CONFIG env) /\
  adapter_calls w (action env request) =
    [ CallAxiosPost (UrlString (env_or_empty env (url_variable service)))
        (request_data (FormData_get formData "query") (clock w)) None ].
Proof.
  intros Hin Hs Hb Hget. split; [ | split ].
  - rewrite own_property_BACKEND_CONFIG.
    apply in_keys_In in Hin. rewrite Hin. reflexivity.
  - intros env' Hsame. now apply BACKEND_CONFIG_reads_urls_only.
  - unfold adapter_calls, calls.
    rewrite (run_action_paths env w request formData Hs Hb).
    unfold adapter_reply, adapter_post.
    rewrite (selected_own env formData service Hin Hget); cbn [falsy url_of url].
    destruct (backend w _ _ _); reflexivity.
Qed.

Lemma source_targets_its_configured_url_witness :
  own_property (BACKEND_CONFIG credential_env) "finance" =
    Some {| url := env_or_empty credential_env (url_variable "finance");
            description := service_description "finance" |} /\
  (forall env',
     (forall s, In s service_names ->
        env' !! url_variable s = credential_env !! url_variable s) ->
     BACKEND_CONFIG env' = BACKEND_CONFIG credential_env) /\
  adapter_calls world_down (action credential_env finance_request) =
    [ CallAxiosPost (UrlString (env_or_empty credential_env (url_variable "finance")))
        (request_data
           (FormData_get [ ("service", EntryString "finance");
                           ("query", EntryString "how is the euro doing") ] "query")
           (clock world_down)) None ].
Proof.
  apply (source_targets_its_configured_url credential_env world_down finance_request
           [ ("service", EntryString "finance");
             ("query", EntryString "how is the euro doing") ] "finance").
  - cbn. tauto.
  - reflexivity.
  - reflexivity.
  - reflexivity.
Defined.

(** C10 at the failing input: the service name [toString] is not one of the
    six sources, yet [BACKEND_CONFIG["toString"]] is the function inherited
    from [Object.prototype], which is truthy.  The guard lets it through,
    [axios.post] is called with an undefined URL, and the caller receives
    the 500 response (or a 200, should the call succeed), never the 400. *)
Theorem inherited_key_passes_the_guard env now reply query :
  in_keys "toString" service_names = false /\
  selected env [ ("service", EntryString "toString"); ("query", EntryString query) ]
    = Inherited "toString" /\
  run {| session := fun _ => inr tt; clock := now; backend := fun _ _ _ => reply |}
      (action env (form_request [ ("service", EntryString "toString");
                                  ("query", EntryString query) ])) =
  (inr (match reply with
        | inr data => success_response data (Some (EntryString "toString"))
        | inl error => failure_response error
        end),
   [ CallAuthenticate; CallFormData; CallClock;
     CallAxiosPost UrlUndefined (request_data (Some (EntryString query)) now) None ]
   ++ match reply with
      | inr _ => []
      | inl error => [ CallConsoleError "Backend API error:" error ]
      end).
Proof.
  split; [ reflexivity | ]. split; [ reflexivity | ].
  rewrite (run_action_paths env
             {| session := fun _ => inr tt; clock := now; backend := fun _ _ _ => reply |}
             (form_request [ ("service", EntryString "toString");
                             ("query", EntryString query) ])
             [ ("service", EntryString "toString"); ("query", EntryString query) ]
             eq_refl eq_refl).
  unfold adapter_reply, adapter_post.
  change (selected env [ ("service", EntryString "toString");
                         ("query", EntryString query) ])
    with (Inherited "toString").
  cbn [falsy url_of backend clock FormData_get String.eqb Ascii.eqb Bool.eqb].
  destruct reply as [error | data]; reflexivity.
Qed.

End RouteFacts.

(* ===================================================================== *)
(** * Facts about the job engine                                          *)
(* ===================================================================== *)

Module EngineFacts.
Import Engine.

(** ** Percentages *)

Lemma percent_range completed total :
  completed <= total -> (0 <= percent completed total <= 100)%Z.
Proof.
  intros Hle. unfold percent.
  destruct (decide (total = 0)) as [-> | Hpos].
  - rewrite Z.div_0_r. lia.
  - split.
    + apply Z.div_pos; lia.
    + apply Z.lt_succ_r. apply Z.div_lt_upper_bound; lia.
Qed.

Lemma percent_mono c1 c2 total :
  c1 <= c2 -> (percent c1 total <= percent c2 total)%Z.
Proof.
  intros Hle. unfold percent.
  destruct (decide (total = 0)) as [-> | Hpos].
  - rewrite !Z.div_0_r. lia.
  - apply Z.div_le_mono; lia.
Qed.

(** ** Counting terminal sources *)

Lemma completedCount_le_size (results : gmap string SourceResult) :
  completedCount results <= size results.
Proof. unfold completedCount. apply map_subseteq_size, map_filter_subseteq. Qed.

Lemma completedCount_insert (results : gmap string SourceResult) s r :
  terminal_result r ->
  completedCount results <= completedCount (<[s := r]> results).
Proof.
  intros Hr. unfold completedCount.
  rewrite map_filter_insert_True by exact Hr.
  rewrite map_size_insert. destruct (_ !! s); unfold id; lia.
Qed.

Lemma all_terminal_true (results : gmap string SourceResult) :
  all_terminal results = true <->
  forall s r, results !! s = Some r -> terminal_result r.
Proof. unfold all_terminal. rewrite bool_decide_eq_true. reflexivity. Qed.

Lemma any_ok_true (results : gmap string SourceResult) :
  any_ok results = true <-> exists s r, results !! s = Some r /\ state r = src_ok.
Proof.
  unfold any_ok. rewrite bool_decide_eq_true. unfold map_Exists, ok_result.
  reflexivity.
Qed.

Lemma record_result_terminal reg s raw latency :
  terminal_result (record_result reg s raw latency).
Proof.
  unfold terminal_result, record_result.
  destruct raw as [d | []]; [ destruct (schema_valid reg s d) | .. ]; reflexivity.
Qed.

(** ** The Aggregator's verdict *)

Section Invariants.
Variable reg : Registry.

Lemma aggregate_Some results insight :
  aggregate reg results = Some insight ->
  any_ok results = true /\ degraded insight = any_failed results.
Proof.
  unfold aggregate. destruct (any_ok results); [ | discriminate ].
  intros [= <-]. split; reflexivity.
Qed.

Lemma aggregate_None results :
  aggregate reg results = None -> any_ok results = false.
Proof. unfold aggregate. destruct (any_ok results); [ discriminate | reflexivity ]. Qed.


(** ** Each mutation keeps a job well formed *)

Lemma job_ok_new_job id q now :
  valid_query q = true -> job_ok reg (new_job id q now).
Proof.
  intros Hvalid. unfold valid_query in Hvalid.
  destruct (sources q) as [ | s rest ] eqn:Hsources; [ discriminate | ].
  split; cbn.
  - lia.
  - intros _. apply percent_range, completedCount_le_size.
  - intros _. split; [ | reflexivity ].
    destruct (all_terminal _) eqn:Hall; [ exfalso | reflexivity ].
    rewrite all_terminal_true in Hall.
    specialize (Hall s (blank_result s)).
    rewrite Hsources in Hall; cbn in Hall. rewrite lookup_insert_eq in Hall.
    specialize (Hall eq_refl). discriminate Hall.
  - discriminate.
  - discriminate.
Qed.

Lemma job_ok_dispatch j :
  job_ok reg j ->
  job_ok reg (if decide (status j = pending) then set_status running j else j).
Proof.
  intros Hok. destruct (decide (status j = pending)) as [Hp | ]; [ | exact Hok ].
  destruct Hok as [Hrange Hlive Hwaits _ _].
  rewrite Hp in Hlive, Hwaits.
  split; cbn; auto; discriminate.
Qed.

Lemma progress_finish now j : progress (finish reg now j) = progress j.
Proof.
  unfold finish. destruct (all_terminal _); [ | reflexivity ].
  destruct (aggregate reg _); reflexivity.
Qed.

Lemma job_ok_finish now j :
  status j = running ->
  combinedInsight j = None ->
  (0 <= progress j <= 100)%Z ->
  (progress j <= percent (completedCount (sourceResults j)) (size (sourceResults j)))%Z ->
  job_ok reg (finish reg now j).
Proof.
  intros Hrun Hnone Hrange Hlive. unfold finish.
  destruct (all_terminal (sourceResults j)) eqn:Hall.
  - destruct (aggregate reg (sourceResults j)) as [insight | ] eqn:Hagg.
    + apply aggregate_Some in Hagg as Hverdict. destruct Hverdict as [Hany _].
      split; cbn; try discriminate; auto.
    + apply aggregate_None in Hagg.
      split; cbn; try discriminate; auto.
  - split; rewrite ?Hrun; try discriminate; auto.
Qed.

Lemma source_resolved_cases s raw latency now j :
  (status j = running /\
   (exists r, sourceResults j !! s = Some r /\ state r = src_pending) /\
   source_resolved reg s raw latency now j =
   finish reg now
     {| job_id := job_id j; status := running;
        progress := percent (completedCount (<[s := record_result reg s raw latency]> (sourceResults j)))
                            (size (<[s := record_result reg s raw latency]> (sourceResults j)));
        query := query j;
        sourceResults := <[s := record_result reg s raw latency]> (sourceResults j);
        combinedInsight := combinedInsight j;
        createdAt := createdAt j; completedAt := completedAt j |})
  \/ source_resolved reg s raw latency now j = j.
Proof.
  unfold source_resolved.
  destruct (status j) eqn:Hst; auto.
  destruct (sourceResults j !! s) as [r | ] eqn:Hr; cbn; auto.
  destruct (state r) eqn:Hstate; auto.
  left. split; [ reflexivity | ]. split; [ | reflexivity ].
  exists r. split; [ reflexivity | assumption ].
Qed.

Lemma job_ok_source_resolved s raw latency now j :
  job_ok reg j -> job_ok reg (source_resolved reg s raw latency now j).
Proof.
  intros Hok.
  destruct (source_resolved_cases s raw latency now j)
    as [(Hrun & (r & Hr & Hpending) & ->) | ->]; [ | exact Hok ].
  destruct Hok as [_ _ Hwaits _ _]. rewrite Hrun in Hwaits.
  destruct (Hwaits eq_refl) as [_ Hnone].
  apply job_ok_finish; cbn; auto.
  - apply percent_range, completedCount_le_size.
  - lia.
Qed.

Lemma progress_source_resolved s raw latency now j :
  job_ok reg j ->
  (progress j <= progress (source_resolved reg s raw latency now j))%Z.
Proof.
  intros Hok.
  destruct (source_resolved_cases s raw latency now j)
    as [(Hrun & (r & Hr & Hpending) & ->) | ->]; [ | lia ].
  rewrite progress_finish; cbn.
  destruct Hok as [_ Hlive _ _ _]. rewrite Hrun in Hlive.
  etransitivity; [ exact (Hlive eq_refl) | ].
  rewrite map_size_insert_Some by (rewrite Hr; eauto).
  apply percent_mono, completedCount_insert, record_result_terminal.
Qed.

Lemma job_ok_timed_out_job now j :
  job_ok reg j -> job_ok reg (timed_out_job now j).
Proof.
  intros Hok. unfold timed_out_job.
  destruct (is_final (status j)); [ exact Hok | ].
  destruct Hok as [Hrange _ _ _ _].
  split; cbn; try discriminate; auto.
Qed.

Lemma progress_timed_out_job now j : progress (timed_out_job now j) = progress j.
Proof. unfold timed_out_job. destruct (is_final (status j)); reflexivity. Qed.

End Invariants.

(** ** One operation at a time *)

Section Steps.
Variable reg : Registry.

(** An operation leaves the store alone, creates one job under the next
    identifier, or mutates one stored job. *)
Lemma apply_op_shape op st :
  (fst (apply_op reg op st) = st /\
   forall id, snd (apply_op reg op st) <> Accepted id)
  \/ (exists q now,
        op = OpSubmit q now /\ valid_query q = true /\
        fst (apply_op reg op st) =
          {| jobs := <[issued st := new_job (issued st) q now]> (jobs st);
             issued := S (issued st) |} /\
        snd (apply_op reg op st) = Accepted (issued st))
  \/ (exists id f j,
        mutation_of reg op = Some (id, f) /\ jobs st !! id = Some j /\
        fst (apply_op reg op st) =
          {| jobs := <[id := f j]> (jobs st); issued := issued st |} /\
        snd (apply_op reg op st) = Done).
Proof.
  destruct op as [q now | id | id s raw latency now | id now | id]; cbn.
  - unfold submit. destruct (valid_query q) eqn:Hvalid.
    + right; left. exists q, now. repeat split; assumption.
    + left. split; [ reflexivity | discriminate ].
  - unfold dispatch, update. destruct (jobs st !! id) as [j | ] eqn:Hj.
    + right; right. eexists id, _, j. repeat split; eauto.
    + left. split; [ reflexivity | discriminate ].
  - unfold resolve, update. destruct (jobs st !! id) as [j | ] eqn:Hj.
    + right; right. eexists id, _, j. repeat split; eauto.
    + left. split; [ reflexivity | discriminate ].
  - unfold job_timeout, update. destruct (jobs st !! id) as [j | ] eqn:Hj.
    + right; right. eexists id, _, j. repeat split; eauto.
    + left. split; [ reflexivity | discriminate ].
  - unfold get_status, get. destruct (jobs st !! id) as [j | ] eqn:Hj.
    + left. split; [ reflexivity | discriminate ].
    + left. split; [ reflexivity | discriminate ].
Qed.

(** Every mutation keeps a job well formed, never lowers its progress, and
    only the job-level timeout moves a job to [timed_out]. *)
Lemma mutation_of_ok op id f j :
  mutation_of reg op = Some (id, f) ->
  job_ok reg j ->
  job_ok reg (f j) /\ (progress j <= progress (f j))%Z /\
  (status (f j) = timed_out ->
   status j = timed_out \/ job_timeout_fired id [op] = true).
Proof.
  intros Hmut Hok.
  destruct op as [q now | id' | id' s raw latency now | id' now | id'];
    cbn in Hmut; try discriminate; injection Hmut as <- <-.
  - split; [ now apply job_ok_dispatch | ].
    destruct (decide (status j = pending)); cbn; split; try lia; auto; discriminate.
  - split; [ now apply job_ok_source_resolved | ].
    split; [ now apply progress_source_resolved | ].
    destruct (source_resolved_cases reg s raw latency now j)
      as [(Hrun & _ & ->) | ->]; [ | auto ].
    unfold finish; cbn. destruct (all_terminal _); [ | discriminate ].
    destruct (aggregate reg _); discriminate.
  - split; [ now apply job_ok_timed_out_job | ].
    rewrite progress_timed_out_job. split; [ lia | ].
    intros _. right. cbn. rewrite Nat.eqb_refl. reflexivity.
Qed.

Lemma store_ok_empty : store_ok reg empty_store.
Proof. intros id j Hj. cbn in Hj. rewrite lookup_empty in Hj. discriminate. Qed.

Lemma store_ok_apply_op op st :
  store_ok reg st -> store_ok reg (fst (apply_op reg op st)).
Proof.
  intros Hok.
  destruct (apply_op_shape op st)
    as [[-> _] | [(q & now & -> & Hvalid & -> & _) | (id & f & j & Hmut & Hj & -> & _)]].
  - exact Hok.
  - intros id j; cbn. rewrite lookup_insert. case_decide as Hid.
    + intros [= <-]. subst id. split; [ lia | now apply job_ok_new_job ].
    + intros Hj. destruct (Hok id j Hj). split; [ lia | assumption ].
  - intros id' j'; cbn. rewrite lookup_insert. case_decide as Hid.
    + intros [= <-]. subst id'. destruct (Hok id j Hj) as [Hlt Hjob].
      split; [ assumption | ].
      now apply (mutation_of_ok op id f j Hmut).
    + apply Hok.
Qed.

(** A stored job stays stored, and its progress does not go down. *)
Lemma apply_op_progress op st id j :
  store_ok reg st -> jobs st !! id = Some j ->
  exists j', jobs (fst (apply_op reg op st)) !! id = Some j' /\
             (progress j <= progress j')%Z.
Proof.
  intros Hok Hj.
  destruct (apply_op_shape op st)
    as [[-> _] | [(q & now & -> & Hvalid & -> & _) | (id' & f & j0 & Hmut & Hj0 & -> & _)]].
  - exists j. split; [ assumption | lia ].
  - exists j. split; [ | lia ]. cbn.
    rewrite lookup_insert_ne; [ assumption | ].
    destruct (Hok id j Hj). lia.
  - cbn. destruct (decide (id' = id)) as [-> | Hne].
    + rewrite Hj in Hj0. injection Hj0 as <-.
      exists (f j). rewrite lookup_insert_eq. split; [ reflexivity | ].
      destruct (Hok id j Hj) as [_ Hjob].
      now apply (mutation_of_ok op id f j Hmut).
    + exists j. rewrite lookup_insert_ne by exact Hne. split; [ assumption | lia ].
Qed.

(** A job found after an operation was there before, unless the operation
    is the submission that was answered with its identifier. *)
Lemma apply_op_origin op st id j' :
  jobs (fst (apply_op reg op st)) !! id = Some j' ->
  is_Some (jobs st !! id) \/ snd (apply_op reg op st) = Accepted id.
Proof.
  destruct (apply_op_shape op st)
    as [[-> _] | [(q & now & -> & Hvalid & -> & ->) | (id' & f & j0 & Hmut & Hj0 & -> & _)]];
    cbn.
  - eauto.
  - rewrite lookup_insert. case_decide as Hid.
    + subst id. auto.
    + eauto.
  - rewrite lookup_insert. case_decide as Hid.
    + subst id'. eauto.
    + eauto.
Qed.


End Steps.

(** ** Histories *)

Section Histories.
Variable reg : Registry.

Lemma exec_cons op ops st :
  exec reg (op :: ops) st =
  (fst (exec reg ops (fst (apply_op reg op st))),
   snd (apply_op reg op st) :: snd (exec reg ops (fst (apply_op reg op st)))).
Proof.
  cbn [exec]. destruct (apply_op reg op st) as [st1 r]; cbn [fst snd].
  destruct (exec reg ops st1) as [st2 rs]. reflexivity.
Qed.

Lemma store_ok_exec ops : forall st,
  store_ok reg st -> store_ok reg (fst (exec reg ops st)).
Proof.
  induction ops as [ | op ops IH ]; intros st Hok.
  - exact Hok.
  - rewrite exec_cons; cbn [fst]. apply IH, store_ok_apply_op, Hok.
Qed.

Lemma exec_progress ops : forall st id j,
  store_ok reg st -> jobs st !! id = Some j ->
  exists j', jobs (fst (exec reg ops st)) !! id = Some j' /\
             (progress j <= progress j')%Z.
Proof.
  induction ops as [ | op ops IH ]; intros st id j Hok Hj.
  - exists j. split; [ exact Hj | lia ].
  - rewrite exec_cons; cbn [fst].
    destruct (apply_op_progress reg op st id j Hok Hj) as (j1 & Hj1 & Hle1).
    destruct (IH _ id j1 (store_ok_apply_op reg op st Hok) Hj1) as (j2 & Hj2 & Hle2).
    exists j2. split; [ exact Hj2 | lia ].
Qed.

Lemma exec_origin ops : forall st id j',
  jobs (fst (exec reg ops st)) !! id = Some j' ->
  is_Some (jobs st !! id) \/ In (Accepted id) (snd (exec reg ops st)).
Proof.
  induction ops as [ | op ops IH ]; intros st id j'.
  - cbn. eauto.
  - rewrite exec_cons; cbn [fst snd]. intros Hj'.
    destruct (IH _ id j' Hj') as [[j1 Hj1] | Hin].
    + destruct (apply_op_origin reg op st id j1 Hj1) as [Hsome | Hacc].
      * left. exact Hsome.
      * right. left. exact Hacc.
    + right. right. exact Hin.
Qed.



End Histories.

(** ** What a timed-out job looks like *)







(** ** The ranking of recommendations *)

#[local] Instance ranks_before_total : Total ranks_before.
Proof. intros c1 c2. unfold ranks_before. lia. Qed.

#[local] Instance ranks_before_transitive : Transitive ranks_before.
Proof. intros c1 c2 c3. unfold ranks_before. lia. Qed.

Lemma rank_sorted candidates : StronglySorted ranks_before (rank candidates).
Proof. unfold rank. apply StronglySorted_merge_sort; apply _. Qed.

Lemma rank_permutation candidates : rank candidates ≡ₚ candidates.
Proof. unfold rank. apply merge_sort_Permutation. Qed.

(** ** The claims about the engine *)




(** C5: polling is read-only, the store after [status] is the store before
    it, whatever the id; and an id that no [submit] of the history has
    returned is answered with [JobNotFound], a 404, not with a snapshot. *)
Theorem status_is_read_only_and_unknown_is_not_found reg ops id :
  ~ In (Accepted id) (snd (exec reg ops empty_store)) ->
  (forall st id', fst (get_status id' st) = st) /\
  get_status id (fst (exec reg ops empty_store)) =
    (fst (exec reg ops empty_store), Rejected JobNotFound) /\
  poll_http_status (snd (get_status id (fst (exec reg ops empty_store)))) = 404%Z.
Proof.
  intros Hnever.
  assert (Hread : forall st id', fst (get_status id' st) = st).
  { intros st id'. unfold get_status. destruct (get id' st); reflexivity. }
  assert (Hnone : jobs (fst (exec reg ops empty_store)) !! id = None).
  { destruct (jobs (fst (exec reg ops empty_store)) !! id) as [j | ] eqn:Hj;
      [ exfalso | reflexivity ].
    destruct (exec_origin reg ops empty_store id j Hj) as [[j0 Hj0] | Hin].
    - cbn in Hj0. rewrite lookup_empty in Hj0. discriminate.
    - exact (Hnever Hin). }
  split; [ exact Hread | ].
  unfold get_status, get. rewrite Hnone. split; reflexivity.
Qed.

Lemma status_is_read_only_and_unknown_is_not_found_witness :
  ~ In (Accepted 7) (snd (exec sample_registry degraded_scenario empty_store)) /\
  (forall st id', fst (get_status id' st) = st) /\
  get_status 7 (fst (exec sample_registry degraded_scenario empty_store)) =
    (fst (exec sample_registry degraded_scenario empty_store), Rejected JobNotFound) /\
  poll_http_status
    (snd (get_status 7 (fst (exec sample_registry degraded_scenario empty_store))))
  = 404%Z.
Proof.
  assert (Hnever : ~ In (Accepted 7)
                     (snd (exec sample_registry degraded_scenario empty_store))).
  { vm_compute. intros H.
    repeat (destruct H as [H | H]; [ discriminate H | ]). exact H. }
  split; [ exact Hnever | ].
  exact (status_is_read_only_and_unknown_is_not_found
           sample_registry degraded_scenario 7 Hnever).
Defined.

(** C6: the progress of a job is an integer between 0 and 100 and never
    goes down: whatever operations (adapter resolutions, timeouts, polls,
    other submissions) occur between two observations of the job, the
    later progress is at least the earlier one; in particular this holds
    across repeated polls while the job is running. *)
Theorem progress_is_monotone reg ops1 ops2 id j1 j2 :
  jobs (fst (exec reg ops1 empty_store)) !! id = Some j1 ->
  jobs (fst (exec reg ops2 (fst (exec reg ops1 empty_store)))) !! id = Some j2 ->
  (0 <= progress j1)%Z /\ (progress j1 <= progress j2)%Z /\ (progress j2 <= 100)%Z.
Proof.
  intros Hj1 Hj2.
  pose proof (store_ok_exec reg ops1 empty_store (store_ok_empty reg)) as Hok1.
  pose proof (store_ok_exec reg ops2 _ Hok1) as Hok2.
  destruct (exec_progress reg ops2 _ id j1 Hok1 Hj1) as (j2' & Hj2' & Hle).
  rewrite Hj2 in Hj2'. injection Hj2' as <-.
  destruct (Hok1 id j1 Hj1) as [_ [Hrange1 _ _ _ _]].
  destruct (Hok2 id j2 Hj2) as [_ [Hrange2 _ _ _ _]].
  lia.
Qed.

Lemma progress_is_monotone_witness :
  exists j1 j2,
    jobs (fst (exec sample_registry (firstn 3 degraded_scenario) empty_store)) !! 0
      = Some j1 /\
    jobs (fst (exec sample_registry (skipn 3 degraded_scenario)
                 (fst (exec sample_registry (firstn 3 degraded_scenario) empty_store))))
      !! 0 = Some j2 /\
    progress j1 = 50%Z /\ progress j2 = 100%Z /\
    (0 <= progress j1)%Z /\ (progress j1 <= progress j2)%Z /\ (progress j2 <= 100)%Z.
Proof.
  eexists. eexists.
  split; [ vm_compute; reflexivity | ].
  split; [ vm_compute; reflexivity | ].
  split; [ reflexivity | ].
  split; [ reflexivity | ].
  apply (progress_is_monotone sample_registry (firstn 3 degraded_scenario)
           (skipn 3 degraded_scenario) 0).
  - vm_compute; reflexivity.
  - vm_compute; reflexivity.
Defined.

End EngineFacts.

(* ===================================================================== *)
(** * Facts about the loader and the page of [api.backend.ts]             *)
(* ===================================================================== *)

Module RouteViewFacts.
Import Route RouteView.

Lemma run_loader env w request :
  run w (loader env request) =
  match session w request with
  | inl t => (inl t, [CallAuthenticate])
  | inr _ =>
      (inr (json (JObj [ ("backendServices", backendServices_json (BACKEND_CONFIG env)) ])
                 None),
       [CallAuthenticate])
  end.
Proof. unfold loader; cbn. destruct (session w request) as [t | []]; reflexivity. Qed.

Lemma published_url env service :
  In service service_names ->
  json_path (JObj [ ("backendServices", backendServices_json (BACKEND_CONFIG env)) ])
    [ "backendServices"; service; "url" ]
  = Some (JStr (env_or_empty env (url_variable service))).
Proof.
  intros Hin. cbn in Hin.
  repeat (destruct Hin as [<- | Hin]; [ reflexivity | ]). contradiction.
Qed.

Lemma adapter_calls_of_source env w request formData service :
  In service service_names ->
  session w request = inr tt ->
  body request = Some formData ->
  FormData_get formData "service" = Some (EntryString service) ->
  adapter_calls w (action env request) =
  [ CallAxiosPost (UrlString (env_or_empty env (url_variable service)))
      (request_data (FormData_get formData "query") (clock w)) None ].
Proof.
  intros Hin Hs Hb Hget. unfold adapter_calls, calls.
  rewrite (RouteFacts.run_action_paths env w request formData Hs Hb).
  unfold adapter_reply, adapter_post.
  rewrite (RouteFacts.selected_own env formData service Hin Hget); cbn [falsy url_of url].
  destruct (backend w _ _ _); reflexivity.
Qed.

Lemma serviceOptions_values env :
  List.map value (serviceOptions (BACKEND_CONFIG env)) = service_names.
Proof. reflexivity. Qed.

Lemma env_or_empty_blank env name variable :
  env_or_empty (<[name := ""]> env) variable = env_or_empty (delete name env) variable.
Proof.
  unfold env_or_empty. destruct (decide (name = variable)) as [-> | Hne].
  - rewrite lookup_insert_eq, lookup_delete_eq. reflexivity.
  - rewrite lookup_insert_ne, lookup_delete_ne by exact Hne. reflexivity.
Qed.

Lemma BACKEND_CONFIG_blank env name :
  BACKEND_CONFIG (<[name := ""]> env) = BACKEND_CONFIG (delete name env).
Proof. unfold BACKEND_CONFIG. rewrite !env_or_empty_blank. reflexivity. Qed.

(** The runs of [action] depend on the environment through the table only. *)
Lemma run_action_table env env' w request :
  BACKEND_CONFIG env = BACKEND_CONFIG env' ->
  run w (action env request) = run w (action env' request).
Proof.
  intros Htable.
  destruct (session w request) as [t | []] eqn:Hs.
  { now rewrite !(RouteFacts.run_action_unauthenticated _ w request t Hs). }
  destruct (body request) as [formData | ] eqn:Hb.
  2:{ now rewrite !(RouteFacts.run_action_unparsed _ w request Hs Hb). }
  rewrite !(RouteFacts.run_action_paths _ w request formData Hs Hb).
  unfold adapter_reply, adapter_post, selected. rewrite Htable. reflexivity.
Qed.

(** X1: the URL the loader publishes for a source is the URL [action] posts
    to when that source is submitted: for each of the six sources,
    [backendServices.<source>.url] of the loader's 200 response is the
    target of the one adapter call. *)
Theorem published_url_is_the_posted_url env w request formData service :
  In service service_names ->
  session w request = inr tt ->
  body request = Some formData ->
  FormData_get formData "service" = Some (EntryString service) ->
  exists published u,
    outcome w (loader env request) = inr published /\
    status published = 200%Z /\
    json_path (payload published) [ "backendServices"; service; "url" ] = Some (JStr u) /\
    adapter_calls w (action env request) =
      [ CallAxiosPost (UrlString u)
          (request_data (FormData_get formData "query") (clock w)) None ].
Proof.
  intros Hin Hs Hb Hget.
  eexists _, (env_or_empty env (url_variable service)).
  unfold outcome. rewrite run_loader, Hs; cbn [fst].
  split; [ reflexivity | ]. split; [ reflexivity | ].
  split.
  - now apply published_url.
  - now apply adapter_calls_of_source.
Qed.

Lemma published_url_is_the_posted_url_witness :
  exists published u,
    outcome world_up (loader sample_env finance_request) = inr published /\
    status published = 200%Z /\
    json_path (payload published) [ "backendServices"; "finance"; "url" ] = Some (JStr u) /\
    adapter_calls world_up (action sample_env finance_request) =
      [ CallAxiosPost (UrlString u)
          (request_data
             (FormData_get [ ("service", EntryString "finance");
                             ("query", EntryString "how is the euro doing") ] "query")
             (clock world_up)) None ].
Proof.
  apply (published_url_is_the_posted_url sample_env world_up finance_request
           [ ("service", EntryString "finance");
             ("query", EntryString "how is the euro doing") ] "finance").
  - cbn. tauto.
  - reflexivity.
  - reflexivity.
  - reflexivity.
Defined.

(** X2: [action] rejects, instead of answering, exactly when the
    authentication rejects or the body cannot be read as form data, the
    two awaits that precede its [try]; in that case no adapter was
    called. *)
Theorem action_rejects_only_before_the_try env w request :
  ((exists t, outcome w (action env request) = inl t) <->
   ((exists t, session w request = inl t) \/ body request = None)) /\
  ((exists t, outcome w (action env request) = inl t) ->
   adapter_calls w (action env request) = []).
Proof.
  unfold outcome, adapter_calls, calls.
  destruct (session w request) as [t | []] eqn:Hs.
  { rewrite (RouteFacts.run_action_unauthenticated env w request t Hs).
    split; [ split; eauto | reflexivity ]. }
  destruct (body request) as [formData | ] eqn:Hb.
  2:{ rewrite (RouteFacts.run_action_unparsed env w request Hs Hb).
      split; [ split; eauto | reflexivity ]. }
  rewrite (RouteFacts.run_action_paths env w request formData Hs Hb).
  assert (Hcase : exists response calls,
            (if falsy (selected env formData)
             then (inr invalid_service_response, [CallAuthenticate; CallFormData])
             else match adapter_reply w env formData with
                  | inl error =>
                      (inr (failure_response error),
                       [CallAuthenticate; CallFormData; CallClock;
                        adapter_post w env formData;
                        CallConsoleError "Backend API error:" error])
                  | inr data =>
                      (inr (success_response data (FormData_get formData "service")),
                       [CallAuthenticate; CallFormData; CallClock;
                        adapter_post w env formData])
                  end) = (@inr Thrown Response response, calls)).
  { destruct (falsy _); [ eauto | ].
    destruct (adapter_reply w env formData); eauto. }
  destruct Hcase as (response & made & ->); cbn [fst snd].
  split.
  - split.
    + intros [t Ht]. discriminate Ht.
    + intros [[t Ht] | Hnone]; discriminate.
  - intros [t Ht]. discriminate Ht.
Qed.

(** X3: [action] never retries: whatever the request and however the
    backend answers, a run makes at most one adapter call. *)
Theorem action_posts_at_most_once env w request :
  length (adapter_calls w (action env request)) <= 1.
Proof.
  unfold adapter_calls, calls.
  destruct (session w request) as [t | []] eqn:Hs.
  { rewrite (RouteFacts.run_action_unauthenticated env w request t Hs). cbn. lia. }
  destruct (body request) as [formData | ] eqn:Hb.
  2:{ rewrite (RouteFacts.run_action_unparsed env w request Hs Hb). cbn. lia. }
  rewrite (RouteFacts.run_action_paths env w request formData Hs Hb).
  destruct (falsy _); [ cbn; lia | ].
  destruct (adapter_reply w env formData); cbn; lia.
Qed.

(** X4: for each of the six sources, its URL variable set to the empty
    string is the same as that variable unset: the configuration table is
    the same and, the session check, the clock and the backend being the
    same, so is every run of [action] and of [loader]. *)
Theorem empty_url_variable_is_unset env service w request :
  In service service_names ->
  BACKEND_CONFIG (<[url_variable service := ""]> env)
    = BACKEND_CONFIG (delete (url_variable service) env) /\
  run w (action (<[url_variable service := ""]> env) request)
    = run w (action (delete (url_variable service) env) request) /\
  run w (loader (<[url_variable service := ""]> env) request)
    = run w (loader (delete (url_variable service) env) request).
Proof.
  intros _.
  split; [ apply BACKEND_CONFIG_blank | ]. split.
  - apply run_action_table, BACKEND_CONFIG_blank.
  - rewrite !run_loader, BACKEND_CONFIG_blank. reflexivity.
Qed.

Lemma empty_url_variable_is_unset_witness :
  own_property (BACKEND_CONFIG (<[ "FINANCE_API_URL" := "" ]> sample_env)) "finance"
    = Some {| url := ""; description := "Financial data and currency analysis" |} /\
  BACKEND_CONFIG (<[url_variable "finance" := ""]> sample_env)
    = BACKEND_CONFIG (delete (url_variable "finance") sample_env) /\
  run world_down (action (<[url_variable "finance" := ""]> sample_env) finance_request)
    = run world_down (action (delete (url_variable "finance") sample_env) finance_request) /\
  run world_down (loader (<[url_variable "finance" := ""]> sample_env) finance_request)
    = run world_down (loader (delete (url_variable "finance") sample_env) finance_request).
Proof.
  split; [ reflexivity | ].
  apply (empty_url_variable_is_unset sample_env "finance" world_down finance_request).
  cbn. tauto.
Defined.

(** X5: every option the page's select offers is accepted by [action]:
    submitting the value of an offered option passes the guard, posts to
    that source's configured URL, and is answered with a 200 or a 500,
    never with the 400. *)
Theorem every_offered_option_is_accepted env option w request formData :
  In option (serviceOptions (BACKEND_CONFIG env)) ->
  session w request = inr tt ->
  body request = Some formData ->
  FormData_get formData "service" = Some (EntryString (value option)) ->
  falsy (selected env formData) = false /\
  adapter_calls w (action env request) =
    [ CallAxiosPost (UrlString (env_or_empty env (url_variable (value option))))
        (request_data (FormData_get formData "query") (clock w)) None ] /\
  exists response,
    outcome w (action env request) = inr response /\
    (status response = 200%Z \/ status response = 500%Z).
Proof.
  intros Hin Hs Hb Hget.
  assert (Hname : In (value option) service_names).
  { rewrite <- (serviceOptions_values env). now apply in_map. }
  pose proof (RouteFacts.selected_own env formData _ Hname Hget) as Hsel.
  split; [ rewrite Hsel; reflexivity | ].
  split; [ now apply adapter_calls_of_source | ].
  unfold outcome.
  rewrite (RouteFacts.run_action_paths env w request formData Hs Hb), Hsel; cbn [falsy].
  destruct (adapter_reply w env formData) as [error | data]; eexists;
    (split; [ reflexivity | ]); cbn; auto.
Qed.

Lemma every_offered_option_is_accepted_witness :
  falsy (selected sample_env
           [ ("service", EntryString "finance");
             ("query", EntryString "how is the euro doing") ]) = false /\
  adapter_calls world_down (action sample_env finance_request) =
    [ CallAxiosPost
        (UrlString (env_or_empty sample_env
                      (url_variable (value {| label := "Finance API"; value := "finance" |}))))
        (request_data
           (FormData_get [ ("service", EntryString "finance");
                           ("query", EntryString "how is the euro doing") ] "query")
           (clock world_down)) None ] /\
  exists response,
    outcome world_down (action sample_env finance_request) = inr response /\
    (status response = 200%Z \/ status response = 500%Z).
Proof.
  apply (every_offered_option_is_accepted sample_env
           {| label := "Finance API"; value := "finance" |}
           world_down finance_request
           [ ("service", EntryString "finance");
             ("query", EntryString "how is the euro doing") ]).
  - cbn. tauto.
  - reflexivity.
  - reflexivity.
  - reflexivity.
Defined.

(** X6: after a successful call the page shows the response card and no
    error card, but the table inside it has rows only when the payload is
    truthy: for a payload such as [0], [false], [null] or the empty string
    the card is shown with an empty table. *)
Theorem falsy_payload_leaves_the_table_empty stringify table data service :
  error_card (BackendAPI stringify table
                (Some (payload (success_response data service)))) = None /\
  response_card (BackendAPI stringify table
                   (Some (payload (success_response data service)))) =
    Some (if truthy (Some data)
          then [ [ CellText "Service"; CellValue (Some (entry_json service)) ];
                 [ CellText "Status"; CellText "Success" ];
                 [ CellText "Response"; CellText (stringify data) ] ]
          else []).
Proof.
  split; [ reflexivity | ].
  unfold BackendAPI, rows; cbn.
  destruct (truthy (Some data)); reflexivity.
Qed.

(** X7: whatever [action] answers, the page shows exactly one of its two
    cards: the response card for a 200, the error card for a 400 or a 500;
    the error card carries a details line only for a 500 whose failure has
    a non-empty message. *)
Theorem every_response_shows_exactly_one_card env w request formData stringify :
  session w request = inr tt ->
  body request = Some formData ->
  exists response,
    outcome w (action env request) = inr response /\
    ( (status response = 200%Z /\
       error_card (BackendAPI stringify (BACKEND_CONFIG env) (Some (payload response)))
         = None /\
       exists table,
         response_card (BackendAPI stringify (BACKEND_CONFIG env) (Some (payload response)))
           = Some table)
      \/
      (status response = 400%Z /\
       error_card (BackendAPI stringify (BACKEND_CONFIG env) (Some (payload response)))
         = Some (Some (JStr "Invalid service selected"), None) /\
       response_card (BackendAPI stringify (BACKEND_CONFIG env) (Some (payload response)))
         = None)
      \/
      (status response = 500%Z /\
       (exists error,
          adapter_reply w env formData = inl error /\
          error_card (BackendAPI stringify (BACKEND_CONFIG env) (Some (payload response)))
            = Some (Some (JStr "Failed to connect to backend service"),
                    if String.eqb (error_details error) "" then None
                    else Some (JStr (error_details error)))) /\
       response_card (BackendAPI stringify (BACKEND_CONFIG env) (Some (payload response)))
         = None) ).
Proof.
  intros Hs Hb. unfold outcome.
  rewrite (RouteFacts.run_action_paths env w request formData Hs Hb).
  destruct (falsy (selected env formData)).
  - exists invalid_service_response. split; [ reflexivity | ].
    right; left. repeat split.
  - destruct (adapter_reply w env formData) as [error | data] eqn:Hr.
    + exists (failure_response error). split; [ reflexivity | ].
      right; right. split; [ reflexivity | ]. split; [ | reflexivity ].
      exists error. split; [ reflexivity | ].
      unfold BackendAPI; cbn.
      destruct (String.eqb (error_details error) ""); reflexivity.
    + exists (success_response data (FormData_get formData "service")).
      split; [ reflexivity | ].
      left. split; [ reflexivity | ]. split; [ reflexivity | ].
      eexists. reflexivity.
Qed.

Lemma every_response_shows_exactly_one_card_witness :
  exists response,
    outcome world_down (action sample_env finance_request) = inr response /\
    status response = 500%Z /\
    error_card (BackendAPI (fun _ => "") (BACKEND_CONFIG sample_env)
                  (Some (payload response)))
      = Some (Some (JStr "Failed to connect to backend service"),
              Some (JStr "connect ECONNREFUSED")) /\
    response_card (BackendAPI (fun _ => "") (BACKEND_CONFIG sample_env)
                     (Some (payload response))) = None.
Proof.
  destruct (every_response_shows_exactly_one_card sample_env world_down finance_request
              [ ("service", EntryString "finance");
                ("query", EntryString "how is the euro doing") ]
              (fun _ => "") eq_refl eq_refl)
    as (response & Hout & _).
  exists response. split; [ exact Hout | ].
  injection Hout as <-. repeat split.
Defined.

End RouteViewFacts.

(* ===================================================================== *)
(** * Facts about the loader of [_index.tsx]                              *)
(* ===================================================================== *)

Module IndexRouteFacts.
Import Route IndexRoute.

(** Reading [data] and then [shop] off a parsed reply. *)
Lemma run_members w responseJson :
  run w (bind (member (Some responseJson) "data") (fun data =>
         bind (member data "shop") (fun shop =>
         Ret (json (shop_payload shop) None)))) =
  match responseJson with
  | JNull =>
      (inl (ErrorObject "Cannot read properties of null (reading 'data')"), [])
  | _ =>
      match RouteView.json_get responseJson "data" with
      | None =>
          (inl (ErrorObject "Cannot read properties of undefined (reading 'shop')"), [])
      | Some JNull =>
          (inl (ErrorObject "Cannot read properties of null (reading 'shop')"), [])
      | Some d => (inr (json (shop_payload (RouteView.json_get d "shop")) None), [])
      end
  end.
Proof.
  destruct responseJson as [ | b | z | str | items | fields ]; try reflexivity.
  cbn. destruct (RouteView.own_field fields "data") as [[ | b | z | str | items | inner ] | ];
    reflexivity.
Qed.

Lemma run_index_loader w request :
  run w (loader request) =
  match session w request with
  | inl t => (inl t, [CallAuthenticate])
  | inr _ =>
      match graphql w shop_query with
      | inl t => (inl t, [CallAuthenticate; CallGraphql shop_query])
      | inr response =>
          match json_result response with
          | inl t => (inl t, [CallAuthenticate; CallGraphql shop_query; CallJson])
          | inr responseJson =>
              (fst (run w (bind (member (Some responseJson) "data") (fun data =>
                           bind (member data "shop") (fun shop =>
                           Ret (json (shop_payload shop) None))))),
               [CallAuthenticate; CallGraphql shop_query; CallJson])
          end
      end
  end.
Proof.
  unfold loader. cbn [bind await run answer observe].
  destruct (session w request) as [t | []]; [ reflexivity | ].
  cbn [bind await run answer observe].
  destruct (graphql w shop_query) as [t | response]; [ reflexivity | ].
  cbn [bind await run answer observe].
  destruct (json_result response) as [t | responseJson]; [ reflexivity | ].
  cbn [bind].
  rewrite run_members.
  destruct responseJson as [ | b | z | str | items | fields ]; try reflexivity.
  cbn. destruct (RouteView.own_field fields "data") as [[ | b | z | str | items | inner ] | ];
    reflexivity.
Qed.

(** X8: the dashboard loader resolves exactly when the session
    authenticates, the Admin API call resolves, its body parses, and the
    parsed reply has a [data] that is neither missing nor [null]; it then
    answers 200 with [data.shop] under [shop] (and with an empty object
    when [data] has no [shop]).  In every other case it rejects: it has no
    [catch]. *)
Theorem index_loader_resolves_exactly_when w request response :
  fst (run w (loader request)) = inr response <->
  exists r j d,
    session w request = inr tt /\
    graphql w shop_query = inr r /\
    json_result r = inr j /\
    RouteView.json_get j "data" = Some d /\ d <> JNull /\
    response = json (shop_payload (RouteView.json_get d "shop")) None.
Proof.
  rewrite run_index_loader. split.
  - destruct (session w request) as [t | []]; [ discriminate | ].
    destruct (graphql w shop_query) as [t | r]; [ discriminate | ].
    destruct (json_result r) as [t | j] eqn:Hj; [ discriminate | ].
    cbn [fst]. rewrite run_members.
    destruct j as [ | b | z | str | items | fields ]; try discriminate.
    cbn [RouteView.json_get].
    destruct (RouteView.own_field fields "data") as [d | ] eqn:Hd; [ | discriminate ].
    intros Hrun. exists r, (JObj fields), d.
    destruct d; try discriminate Hrun; injection Hrun as <-;
      repeat split; auto; discriminate.
  - intros (r & j & d & -> & -> & -> & Hd & Hnull & ->).
    cbn [fst]. rewrite run_members.
    destruct j as [ | b | z | str | items | fields ]; try discriminate Hd.
    rewrite Hd. destruct d; try reflexivity. contradiction.
Qed.

(** X9: a reply without [data], which is what the Admin API sends with
    GraphQL errors, makes the loader reject with the [TypeError] of reading
    [shop] of [undefined], after the one GraphQL call it makes. *)
Theorem reply_without_data_rejects w request r fields :
  session w request = inr tt ->
  graphql w shop_query = inr r ->
  json_result r = inr (JObj fields) ->
  RouteView.own_field fields "data" = None ->
  run w (loader request) =
  (inl (ErrorObject "Cannot read properties of undefined (reading 'shop')"),
   [ CallAuthenticate; CallGraphql shop_query; CallJson ]).
Proof.
  intros Hs Hg Hj Hd.
  rewrite run_index_loader, Hs, Hg, Hj, run_members.
  cbn [RouteView.json_get]. rewrite Hd. reflexivity.
Qed.

Lemma reply_without_data_rejects_witness :
  run throttled_world (loader finance_request) =
  (inl (ErrorObject "Cannot read properties of undefined (reading 'shop')"),
   [ CallAuthenticate; CallGraphql shop_query; CallJson ]).
Proof.
  exact (reply_without_data_rejects throttled_world finance_request
           {| json_result := inr (JObj [ ("errors", JArr [ JStr "Throttled" ]) ]) |}
           [ ("errors", JArr [ JStr "Throttled" ]) ]
           eq_refl eq_refl eq_refl eq_refl).
Defined.

End IndexRouteFacts.
